(** * HTML-Content-Checker: the batched fetch pipeline of [contentchecker.py]

    A shallow embedding of [fetch_product_page], [check_product_content]
    and [process_skus], and the properties of the pipeline that the
    specification states about them.

    Modelling choices.
    - A coroutine is a computation in a small state-and-exception monad
      [IO].  The state is what one pipeline can observe of the shared
      [aiohttp.ClientSession]: how many requests it has issued, and the
      events it has produced so far (GETs, sleeps, log lines).
    - The remote site is an oracle [net : nat -> get_result]: the answer to
      the n-th GET of a pipeline.  An answer is a response (status and the
      result of reading its text) or a raised exception.
    - Only exceptions below Python's [Exception] are modelled; these are the
      ones [except Exception] catches.
    - [BeautifulSoup(html, 'html.parser')] is a parameter [BeautifulSoup] of
      the development: it gives the parsed page, on which
      [find('a', id=...)] is a lookup, or the exception with which the
      parser rejects the markup.
    - [asyncio.as_completed] yields the tasks of a group in an order chosen
      by a scheduling oracle [sched]. *)

From Stdlib Require Import List String Ascii ZArith Lia Bool Arith PeanoNat.
From Stdlib Require Import Permutation Sorted DecimalString.
Import ListNotations.

Local Open Scope list_scope.
Local Open Scope string_scope.

(** ** Module constants (lines 12-14) *)

Definition BATCH_SIZE : nat := 50.
Definition RETRY_COUNT : Z := 3.
Definition TIMEOUT : Z := 30.

(** ** Exceptions, outcomes, events *)

Inductive exn : Type :=
| TimeoutError                         (* asyncio.TimeoutError *)
| UnboundLocalError (name : string)    (* a NameError: local read before assignment *)
| ClientError (msg : string).          (* any other subclass of Exception *)

(** [str(e)], as interpolated in the log line of line 70.  The wording of
    the unbound-local message depends on the interpreter version. *)
Definition str_exn (e : exn) : string :=
  match e with
  | TimeoutError => EmptyString
  | UnboundLocalError name =>
      "local variable '" ++ name ++ "' referenced before assignment"
  | ClientError msg => msg
  end.

Inductive outcome (A : Type) : Type :=
| Returned (a : A)
| Raised (e : exn).
Arguments Returned {A} a.
Arguments Raised {A} e.

Inductive log_level : Type := WARNING | ERROR.

Inductive event : Type :=
| EvGet (url : string) (timeout : Z)
| EvSleep (seconds : Z)
| EvLog (level : log_level) (msg : string).

(** What the site answers to one GET. *)
Inductive text_result : Type :=
| Text (html : string)
| TextRaises (e : exn).

Inductive get_result : Type :=
| GetRaises (e : exn)
| GetResponse (status : Z) (text : text_result).

Record response : Type := mkResponse { status : Z; body : text_result }.

(** A result tuple [(code, url, message)]. *)
Definition record : Type := (string * string * string)%type.

Definition rec_code (r : record) : string := fst (fst r).
Definition rec_url (r : record) : string := snd (fst r).
Definition rec_status (r : record) : string := snd r.

Definition Sim : string := "Sim".
Definition Nao : string := "Não".
Definition Erro : string := "Erro".

(** ** The monad of one pipeline *)

Record session_state : Type := mkState {
  requests : nat;
  events : list event
}.

Definition init_state : session_state := mkState 0 [].

Definition IO (A : Type) : Type := session_state -> outcome A * session_state.

Definition ret {A} (a : A) : IO A := fun s => (Returned a, s).

Definition raise {A} (e : exn) : IO A := fun s => (Raised e, s).

Definition bind {A B} (m : IO A) (k : A -> IO B) : IO B :=
  fun s => match m s with
           | (Returned a, s') => k a s'
           | (Raised e, s') => (Raised e, s')
           end.

(** [try: m  except ... as e: h e] *)
Definition try_except {A} (m : IO A) (h : exn -> IO A) : IO A :=
  fun s => match m s with
           | (Returned a, s') => (Returned a, s')
           | (Raised e, s') => h e s'
           end.

Declare Scope io_scope.
Delimit Scope io_scope with io.
Notation "x <- m ;; k" := (bind m (fun x => k))
  (at level 61, m at next level, right associativity) : io_scope.
Notation "m ;;; k" := (bind m (fun _ => k))
  (at level 61, right associativity) : io_scope.
Local Open Scope io_scope.

Definition emit (e : event) : IO unit :=
  fun s => (Returned tt, mkState (requests s) (events s ++ [e])%list).

Definition logging_warning (msg : string) : IO unit := emit (EvLog WARNING msg).
Definition logging_error (msg : string) : IO unit := emit (EvLog ERROR msg).
Definition asyncio_sleep (seconds : Z) : IO unit := emit (EvSleep seconds).

(** Reading a local variable that may not have been assigned. *)
Definition load (name : string) (v : option string) : IO string :=
  match v with
  | Some x => ret x
  | None => raise (UnboundLocalError name)
  end.

(** [session.get(url, timeout=t)]: the request is issued, then the oracle
    decides what comes back. *)
Definition session_get (net : nat -> get_result) (url : string) (t : Z)
  : IO response :=
  fun s =>
    let s' := mkState (S (requests s)) (events s ++ [EvGet url t])%list in
    match net (requests s) with
    | GetRaises e => (Raised e, s')
    | GetResponse st tx => (Returned (mkResponse st tx), s')
    end.

(** [await response.text()] *)
Definition response_text (r : response) : IO string :=
  match body r with
  | Text html => ret html
  | TextRaises e => raise e
  end.

(** ** Strings *)

(** [needle in hay] on Python strings. *)
Fixpoint str_in (needle hay : string) : bool :=
  if String.prefix needle hay then true
  else match hay with
       | EmptyString => false
       | String _ hay' => str_in needle hay'
       end.

(** [str(n)] for a non-negative integer. *)
Definition str_nat (n : nat) : string := NilZero.string_of_uint (Nat.to_uint n).

(** ** HTML lookup *)

(** A [bs4] tag, as far as the pipeline looks at it: its attributes. *)
Record Tag : Type := mkTag { attrs : list (string * string) }.

(** [tag[key]] when [tag.has_attr(key)], [None] otherwise. *)
Fixpoint tag_get (l : list (string * string)) (key : string) : option string :=
  match l with
  | [] => None
  | (k, v) :: l' => if String.eqb k key then Some v else tag_get l' key
  end.

(** ** The site table of [process_skus] (lines 124-128) *)

Definition base_urls : list (string * string) :=
  [ ("martins", "https://www.martinsatacado.com.br");
    ("efacil", "https://www.efacil.com.br") ].

(** [d.get(key, default)] *)
Fixpoint dict_get (d : list (string * string)) (key default : string) : string :=
  match d with
  | [] => default
  | (k, v) :: d' => if String.eqb k key then v else dict_get d' key default
  end.

(** Truth value of a Python string. *)
Definition truthy (s : string) : bool :=
  match s with EmptyString => false | _ => true end.

(** [range(n)] *)
Definition range (n : Z) : list nat := seq 0 (Z.to_nat n).

(** A parsed page, as far as the pipeline looks at it: [soup id] is
    [soup.find('a', id=id)]. *)
Definition Soup : Type := string -> option Tag.

(** A call of a library function that returns or raises. *)
Definition call {A} (o : outcome A) : IO A := fun s => (o, s).

Section Pipeline.

(** [BeautifulSoup html] is [BeautifulSoup(html, 'html.parser')]: the
    parsed page, or the exception the parser raises on markup it
    rejects. *)
Variable BeautifulSoup : string -> outcome Soup.

(** *** [check_product_content] (lines 74-102) *)

Definition check_product_content (net : nat -> get_result)
    (product_url code : string) : IO record :=
  r <- try_except
         (response <- session_get net product_url TIMEOUT ;;
          if (status response =? 200)%Z then
            html <- response_text response ;;
            ret (Some (code, product_url,
                       if str_in "lp-container" html then Sim else Nao))
          else ret None)
         (fun e =>
            match e with
            | TimeoutError =>
                logging_warning
                  ("Timeout ao verificar a página do produto " ++ product_url ++ ".") ;;;
                ret None
            | _ =>
                logging_error
                  ("Falha ao verificar a página do produto " ++ product_url
                   ++ ": " ++ str_exn e) ;;;
                ret None
            end) ;;
  match r with
  | Some result => ret result
  | None => ret (code, product_url, Erro)
  end.

(** *** [fetch_product_page] (lines 20-72) *)

(** Line 46-47: [search_url] is assigned only for option "efacil". *)
Definition search_url_of (base_url code opt : string) : option string :=
  if String.eqb opt "efacil"
  then Some (base_url ++ "/loja/busca/?searchTerm=" ++ code)
  else None.

(** The [try] block of one attempt (lines 51-66).  [Some r] is a [return r]
    from inside the loop; [None] falls through to the end of the block. *)
Definition search_attempt (net : nat -> get_result)
    (base_url code opt : string) (search_url : option string)
  : IO (option record) :=
  url <- load "search_url" search_url ;;
  response <- session_get net url TIMEOUT ;;
  if (status response =? 200)%Z then
    html <- response_text response ;;
    soup <- call (BeautifulSoup html) ;;
    if String.eqb opt "efacil" then
      let link_tag := soup ("btn_skuP" ++ code) in
      match link_tag with
      | Some tag =>
          match tag_get (attrs tag) "href" with
          | Some href =>
              let product_url := base_url ++ href in
              r <- check_product_content net product_url code ;;
              ret (Some r)
          | None =>
              logging_warning
                ("Nenhum link de produto foi encontrado para o SKU " ++ code
                 ++ " no " ++ opt ++ ".") ;;;
              u <- load "search_url" search_url ;;
              ret (Some (code, u, Erro))
          end
      | None =>
          logging_warning
            ("Nenhum link de produto foi encontrado para o SKU " ++ code
             ++ " no " ++ opt ++ ".") ;;;
          u <- load "search_url" search_url ;;
          ret (Some (code, u, Erro))
      end
    else
      u <- load "search_url" search_url ;;
      ret (Some (code, u, Erro))
  else ret None.

(** The two [except] clauses (lines 67-70).  The second one reads
    [search_url] again to format its message. *)
Definition search_handler (code : string) (search_url : option string)
    (attempt : nat) (e : exn) : IO (option record) :=
  match e with
  | TimeoutError =>
      logging_warning
        ("Timeout ao buscar SKU " ++ code ++ " na tentativa "
         ++ str_nat (attempt + 1) ++ ".") ;;;
      ret None
  | _ =>
      u <- load "search_url" search_url ;;
      logging_error
        ("Tentativa " ++ str_nat (attempt + 1) ++ " falha na busca "
         ++ u ++ ": " ++ str_exn e) ;;;
      ret None
  end.

(** One iteration of the [for] loop (lines 50-71): the guarded block, then
    the sleep of line 71 unless the block returned. *)
Definition loop_body (net : nat -> get_result)
    (base_url code opt : string) (search_url : option string)
    (attempt : nat) : IO (option record) :=
  r <- try_except
         (search_attempt net base_url code opt search_url)
         (search_handler code search_url attempt) ;;
  match r with
  | Some result => ret (Some result)
  | None => asyncio_sleep 1 ;;; ret None
  end.

(** [for attempt in attempts: body], then line 72. *)
Fixpoint for_attempts (body : nat -> IO (option record)) (attempts : list nat)
    (after : IO record) : IO record :=
  match attempts with
  | [] => after
  | attempt :: rest =>
      r <- body attempt ;;
      match r with
      | Some result => ret result
      | None => for_attempts body rest after
      end
  end.

Definition fetch_product_page (net : nat -> get_result)
    (base_url code opt : string) (retries : Z) : IO record :=
  let search_url := search_url_of base_url code opt in
  for_attempts
    (loop_body net base_url code opt search_url)
    (range retries)
    (u <- load "search_url" search_url ;; ret (code, u, Erro)).

(** *** [process_skus] (lines 104-143) *)

(** What the scheduler does, as seen from outside: a group of coroutines is
    handed to [asyncio.as_completed] (which schedules all of them), one
    awaited task finishes, the progress callback is called. *)
Inductive run_event : Type :=
| Launch (tasks : list nat)
| Completed (task : nat)
| Progress (current : nat).

(** A pending coroutine [fetch_product_page(session, base_url, code, option)],
    tagged with the position of its identifier in [codes]. *)
Definition task : Type := (nat * string)%type.

(** [enumerate(codes, start)] and [enumerate(codes)] *)
Definition enumerate_from (start : nat) (codes : list string) : list task :=
  combine (seq start (List.length codes)) codes.

Definition enumerate (codes : list string) : list task :=
  enumerate_from 0 codes.

(** Removing the element at position [j]. *)
Fixpoint take_at {A} (j : nat) (l : list A) {struct l} : option (A * list A) :=
  match l with
  | [] => None
  | x :: l' =>
      match j with
      | 0 => Some (x, l')
      | S j' =>
          match take_at j' l' with
          | Some (y, r) => Some (y, x :: r)
          | None => None
          end
      end
  end.

(** The order in which the tasks of a group finish: the [k]-th to finish is
    the one at position [pick k] (modulo their number) among those still
    running. *)
Fixpoint completion_order {A} (pick : nat -> nat) (k fuel : nat)
    (pending : list A) : list A :=
  match fuel with
  | 0 => []
  | S fuel' =>
      match take_at (pick k mod List.length pending) pending with
      | Some (t, pending') => t :: completion_order pick (S k) fuel' pending'
      | None => []
      end
  end.

Definition as_completed {A} (pick : nat -> nat) (tasks : list A) : list A :=
  completion_order pick 0 (List.length tasks) tasks.

Section Run.

(** [net i n]: the answer to the [n]-th GET of the pipeline of [codes[i]]. *)
Variable net : nat -> nat -> get_result.

(** [sched i k]: the choice of the [k]-th task to finish in the group that
    is flushed at loop index [i]. *)
Variable sched : nat -> nat -> nat.

(** Running one coroutine to its end. *)
Definition run_task (base_url opt : string) (t : task) : outcome record :=
  fst (fetch_product_page (net (fst t)) base_url (snd t) opt RETRY_COUNT
         init_state).

(** Lines 137-140: [for task in as_completed(tasks)], given the order. *)
Fixpoint await_all (base_url opt : string) (i : nat) (order : list task)
    (results : list record) (log : list run_event)
  : outcome (list record) * list run_event :=
  match order with
  | [] => (Returned results, log)
  | t :: rest =>
      match run_task base_url opt t with
      | Returned result =>
          await_all base_url opt i rest (results ++ [result])%list
            (log ++ [Completed (fst t); Progress (i + 1)])%list
      | Raised e => (Raised e, (log ++ [Completed (fst t)])%list)
      end
  end.

(** Lines 134-141: the loop over [enumerate(codes)], with [n = len(codes)]. *)
Fixpoint process_loop (base_url opt : string) (n : nat) (items : list task)
    (tasks : list task) (results : list record) (log : list run_event)
  : outcome (list record) * list run_event :=
  match items with
  | [] => (Returned results, log)
  | (i, code) :: items' =>
      let tasks := (tasks ++ [(i, code)])%list in
      if (BATCH_SIZE <=? List.length tasks)%nat || (i =? n - 1)%nat then
        match await_all base_url opt i (as_completed (sched i) tasks) results
                (log ++ [Launch (map fst tasks)])%list with
        | (Returned results', log') =>
            process_loop base_url opt n items' [] results' log'
        | (Raised e, log') => (Raised e, log')
        end
      else process_loop base_url opt n items' tasks results log
  end.

Definition process_skus (opt : string) (codes : list string)
  : outcome (list record) * list run_event :=
  let base_url := dict_get base_urls opt EmptyString in
  if negb (truthy base_url) then (Returned [], [])
  else process_loop base_url opt (List.length codes) (enumerate codes) [] [] [].

End Run.

End Pipeline.

(** ** Observations on traces *)

Definition is_get (e : event) : bool :=
  match e with EvGet _ _ => true | _ => false end.

Definition is_sleep (e : event) : bool :=
  match e with EvSleep _ => true | _ => false end.

Definition gets (l : list event) : list event := filter is_get l.
Definition sleeps (l : list event) : list event := filter is_sleep l.

(** The arguments of the progress callback, in call order. *)
Fixpoint progress_values (log : list run_event) : list nat :=
  match log with
  | [] => []
  | Progress v :: log' => v :: progress_values log'
  | _ :: log' => progress_values log'
  end.

(** The groups handed to [as_completed], in order. *)
Fixpoint launches (log : list run_event) : list (list nat) :=
  match log with
  | [] => []
  | Launch g :: log' => g :: launches log'
  | _ :: log' => launches log'
  end.

(** The tasks in the order in which they were awaited to completion. *)
Fixpoint completions (log : list run_event) : list nat :=
  match log with
  | [] => []
  | Completed i :: log' => i :: completions log'
  | _ :: log' => completions log'
  end.

(** Number of pipelines scheduled and not yet finished after [log]. *)
Fixpoint in_flight (log : list run_event) : Z :=
  match log with
  | [] => 0%Z
  | Launch g :: log' => (Z.of_nat (List.length g) + in_flight log')%Z
  | Completed _ :: log' => (in_flight log' - 1)%Z
  | Progress _ :: log' => in_flight log'
  end.

(** ** The window: class [URLChecker] (lines 145-245) *)

(** The argument [current / total] of [progress_bar.set], kept as its two
    integer operands; the widget receives the float nearest to the
    quotient. *)
Record fraction : Type := mkFraction { numerator : nat; denominator : nat }.

(** What the window does outside itself. *)
Inductive effect : Type :=
| ToExcel (path : string) (rows : list record)
| StartFile (path : string)
| LoggingError (msg : string).

(** The widgets the methods read or write, and the effects so far. *)
Record URLChecker : Type := mkURLChecker {
  selected_file_label : string;
  option_var : string;
  progress_bar : fraction;
  result_label : string;
  effects : list effect
}.

(** [__init__] (lines 146-176): no file selected, option "efacil", the bar
    at 0, no result. *)
Definition URLChecker_init : URLChecker :=
  mkURLChecker EmptyString "efacil" (mkFraction 0 1) EmptyString [].

Definition set_selected_file (text : string) (self : URLChecker) : URLChecker :=
  mkURLChecker text (option_var self) (progress_bar self) (result_label self)
    (effects self).

Definition set_progress (f : fraction) (self : URLChecker) : URLChecker :=
  mkURLChecker (selected_file_label self) (option_var self) f
    (result_label self) (effects self).

Definition set_result (text : string) (self : URLChecker) : URLChecker :=
  mkURLChecker (selected_file_label self) (option_var self) (progress_bar self)
    text (effects self).

Definition add_effect (e : effect) (self : URLChecker) : URLChecker :=
  mkURLChecker (selected_file_label self) (option_var self) (progress_bar self)
    (result_label self) (effects self ++ [e])%list.

(** [select_file] (lines 178-185); [file_path] is what the dialog returns,
    empty when it is cancelled. *)
Definition select_file (file_path : string) (self : URLChecker) : URLChecker :=
  if truthy file_path then set_selected_file file_path self else self.

(** [save_file] (lines 187-195) returns what the dialog returns. *)
Definition save_file (dialog : string) : string := dialog.

(** [update_progress_bar] (lines 197-207): the division raises
    ZeroDivisionError when [total] is zero. *)
Definition update_progress_bar (current total : nat) (self : URLChecker)
  : outcome URLChecker :=
  if (total =? 0)%nat then Raised (ClientError "division by zero")
  else Returned (set_progress (mkFraction current total) self).

(** The closure [progress_callback] of [process_file] (lines 229-230). *)
Definition progress_callback (total current : nat) (self : URLChecker)
  : outcome URLChecker :=
  update_progress_bar current total self.

(** The calls of the callback made by a run, in order; the first one that
    raises ends the run with its exception. *)
Fixpoint progress_callbacks (total : nat) (values : list nat)
    (self : URLChecker) : option exn * URLChecker :=
  match values with
  | [] => (None, self)
  | current :: rest =>
      match progress_callback total current self with
      | Returned self' => progress_callbacks total rest self'
      | Raised e => (Some e, self)
      end
  end.

(** The [except Exception as e] clause of [run_processing]
    (lines 241-243). *)
Definition report_error (e : exn) (self : URLChecker) : URLChecker :=
  add_effect (LoggingError ("Erro de processamento: " ++ str_exn e))
    (set_result ("Erro: " ++ str_exn e) self).

Section Window.

Variable BeautifulSoup : string -> outcome Soup.
Variable net : nat -> nat -> get_result.
Variable sched : nat -> nat -> nat.

(** The spreadsheet library: [pd.read_excel(path)], [df.columns], and the
    list [df['SKU'].astype(str).str.strip().tolist()]. *)
Variable dataframe : Type.
Variable read_excel : string -> outcome dataframe.
Variable columns : dataframe -> list string.
Variable sku_codes : dataframe -> outcome (list string).

(** [results_df.to_excel(path, index=False)] and [os.startfile(path)]:
    the exception they raise, if any. *)
Variable to_excel_raises : string -> list record -> option exn.
Variable startfile_raises : string -> option exn.

(** [run_processing] (lines 232-243); [dialog] is what the save dialog
    returns if it is opened. *)
Definition run_processing (opt : string) (codes : list string) (total : nat)
    (dialog : string) (self : URLChecker) : URLChecker :=
  let (o, log) := process_skus BeautifulSoup net sched opt codes in
  match progress_callbacks total (progress_values log) self with
  | (Some e, self1) => report_error e self1
  | (None, self1) =>
      match o with
      | Raised e => report_error e self1
      | Returned results =>
          let save_path := save_file dialog in
          if truthy save_path then
            match to_excel_raises save_path results with
            | Some e => report_error e self1
            | None =>
                let self2 :=
                  set_result ("Resultados salvos em " ++ save_path ++ ".")
                    (add_effect (ToExcel save_path results) self1) in
                match startfile_raises save_path with
                | Some e => report_error e self2
                | None => add_effect (StartFile save_path) self2
                end
            end
          else self1
      end
  end.

(** [process_file] (lines 209-245).  An exception of the spreadsheet
    library is not caught: it leaves the method. *)
Definition process_file (dialog : string) (self : URLChecker)
  : outcome URLChecker :=
  let input_file := selected_file_label self in
  if negb (truthy input_file) then
    Returned (set_result "Por favor, selecione um arquivo Excel." self)
  else
    let opt := option_var self in
    match read_excel input_file with
    | Raised e => Raised e
    | Returned df =>
        if negb (existsb (String.eqb "SKU") (columns df)) then
          Returned
            (set_result "O arquivo Excel deve conter uma coluna chamada 'SKU'."
               self)
        else
          match sku_codes df with
          | Raised e => Raised e
          | Returned codes =>
              let total := List.length codes in
              Returned (run_processing opt codes total dialog self)
          end
    end.

End Window.

(** The states of the window that its methods can produce from
    [__init__], whatever the dialogs, the spreadsheets, the site and the
    file system do. *)
Inductive reachable : URLChecker -> Prop :=
| reach_init : reachable URLChecker_init
| reach_select_file file_path self :
    reachable self -> reachable (select_file file_path self)
| reach_process_file BeautifulSoup net sched (dataframe : Type)
    (read_excel : string -> outcome dataframe) columns sku_codes
    to_excel_raises startfile_raises dialog self self' :
    reachable self ->
    process_file BeautifulSoup net sched dataframe read_excel columns sku_codes
      to_excel_raises startfile_raises dialog self = Returned self' ->
    reachable self'.

(** The window after a file has been selected. *)
Definition demo_window : URLChecker := select_file "skus.xlsx" URLChecker_init.

(** The bar after a run: untouched, or at a quotient of at most one. *)
Definition bar_after (n : nat) (before after : fraction) : Prop :=
  after = before \/
  (denominator after = n /\ 1 <= numerator after <= n)%nat.

(** A spreadsheet library for concrete runs: a sheet is its SKU column. *)
Definition toy_read_excel (path : string) : outcome (list string) :=
  Returned ["12345"; "777"].

Definition toy_columns (df : list string) : list string := ["SKU"].

Definition toy_sku_codes (df : list string) : outcome (list string) :=
  Returned df.

(** ** A small site, for concrete runs *)

(** A parser that finds the anchor when the page mentions the id. *)
Definition toy_find (html id : string) : option Tag :=
  if str_in id html then Some (mkTag [("id", id); ("href", "/p/12345")])
  else None.

Definition toy_soup (html : string) : outcome Soup := Returned (toy_find html).

(** A parser that rejects a marked section with an unknown keyword, as
    [html.parser] does, and is [toy_soup] otherwise. *)
Definition strict_soup (html : string) : outcome Soup :=
  if str_in "<![UNKNOWN[" html
  then Raised (ClientError "The markup you provided was rejected by the parser.")
  else Returned (toy_find html).

Definition rejected_page : string := "<![UNKNOWN[]]>".

(** A search page the parser rejects, every time. *)
Definition net_rejected (n : nat) : get_result :=
  GetResponse 200 (Text rejected_page).

Definition search_page : string := "<a id=btn_skuP12345 href=/p/12345>".
Definition marked_page : string := "<div class=lp-container>".
Definition plain_page : string := "<div class=other>".

Definition efacil_url : string := "https://www.efacil.com.br".

Definition net500 (n : nat) : get_result := GetResponse 500 (Text EmptyString).

(** Scenario A: the search page has the link, the product page the marker. *)
Definition netA (n : nat) : get_result :=
  match n with
  | 0 => GetResponse 200 (Text search_page)
  | _ => GetResponse 200 (Text marked_page)
  end.

(** Scenario B: the search page has the link, the product page no marker. *)
Definition netB (n : nat) : get_result :=
  match n with
  | 0 => GetResponse 200 (Text search_page)
  | _ => GetResponse 200 (Text plain_page)
  end.

(** A search page without the anchor. *)
Definition net_nolink (n : nat) : get_result := GetResponse 200 (Text plain_page).

(** A run of three identifiers, two of them equal, in which the second
    task finishes first. *)
Definition demo_codes : list string := ["12345"; "777"; "12345"].

Definition demo_records : list record :=
  [ ("777", "https://www.efacil.com.br/loja/busca/?searchTerm=777", "Erro");
    ("12345", "https://www.efacil.com.br/p/12345", "Sim");
    ("12345", "https://www.efacil.com.br/p/12345", "Sim") ].

Definition demo_log : list run_event :=
  [ Launch [0; 1; 2]; Completed 1; Progress 3; Completed 2; Progress 3;
    Completed 0; Progress 3 ].

(** ** Specification-side definitions *)

Definition is_log (e : event) : bool :=
  match e with EvLog _ _ => true | _ => false end.

(** A trace without its log lines: the requests and the sleeps. *)
Definition io_events (l : list event) : list event :=
  filter (fun e => negb (is_log e)) l.

(** The answers after which the search stage tries again: a raised
    exception (timeout or other), a status that is not 200, or a failure
    while reading the text of the response. *)
Definition transient (r : get_result) : bool :=
  match r with
  | GetRaises _ => true
  | GetResponse st tx =>
      if (st =? 200)%Z
      then match tx with Text _ => false | TextRaises _ => true end
      else true
  end.

(** The classification of the check stage, in the words of the
    specification: Found on success with the marker, NotFound on success
    without it, Error otherwise. *)
Definition check_spec (r : get_result) : string :=
  match r with
  | GetRaises _ => Erro
  | GetResponse st tx =>
      if (st =? 200)%Z
      then match tx with
           | Text html => if str_in "lp-container" html then Sim else Nao
           | TextRaises _ => Erro
           end
      else Erro
  end.

(** The link the search stage can follow on a page the parser accepts:
    the [href] of the anchor keyed by the identifier, if both are there. *)
Definition usable_link (BeautifulSoup : string -> outcome Soup)
    (html code : string) : outcome (option string) :=
  match BeautifulSoup html with
  | Raised e => Raised e
  | Returned page =>
      Returned
        match page ("btn_skuP" ++ code) with
        | Some tag => tag_get (attrs tag) "href"
        | None => None
        end
  end.

(** The answers after which the search stage tries again: the transient
    ones, and a 200 whose text the parser rejects. *)
Definition retried (BeautifulSoup : string -> outcome Soup) (r : get_result)
  : bool :=
  match r with
  | GetRaises _ => true
  | GetResponse st tx =>
      if (st =? 200)%Z
      then match tx with
           | Text html =>
               match BeautifulSoup html with
               | Raised _ => true
               | Returned _ => false
               end
           | TextRaises _ => true
           end
      else true
  end.

(** [needle in hay], said without the code's test. *)
Definition substring_of (needle hay : string) : Prop :=
  exists a b, hay = a ++ needle ++ b.

Definition terminal (st : string) : Prop := st = Sim \/ st = Nao \/ st = Erro.

(** Contiguous groups of [size] elements, the last one possibly shorter. *)
Fixpoint chunks_fuel {A} (fuel size : nat) (l : list A) : list (list A) :=
  match fuel with
  | 0 => []
  | S fuel' =>
      match l with
      | [] => []
      | _ :: _ => firstn size l :: chunks_fuel fuel' size (skipn size l)
      end
  end.

Definition chunks {A} (size : nat) (l : list A) : list (list A) :=
  chunks_fuel (List.length l) size l.

(** The groups of a run. *)
Definition groups_of (codes : list string) : list (list task) :=
  chunks BATCH_SIZE (enumerate codes).

(** Zero-based position, in the input list, of the last identifier of a
    group; and one plus it, the number of identifiers dispatched when the
    group is drained. *)
Definition last_index (g : list task) : nat := fst (last g (0, EmptyString)).
Definition group_end (g : list task) : nat := last_index g + 1.

(** The tasks of a group in the order in which they finish. *)
Definition group_order (sched : nat -> nat -> nat) (g : list task) : list task :=
  as_completed (sched (last_index g)) g.

(** What draining one group adds to the log. *)
Definition group_log (sched : nat -> nat -> nat) (g : list task)
  : list run_event :=
  Launch (map fst g)
  :: flat_map (fun t => [Completed (fst t); Progress (group_end g)])
       (group_order sched g).

(** Each completion paired with the value the callback receives right
    after it. *)
Fixpoint completion_values (log : list run_event) : list (nat * nat) :=
  match log with
  | [] => []
  | Completed i :: Progress v :: log' => (i, v) :: completion_values log'
  | _ :: log' => completion_values log'
  end.

(** The values passed to the callback by the groups of the identifiers
    from position [s] on. *)
Definition values_from (fuel s : nat) (l : list string) : list nat :=
  flat_map (fun g => repeat (group_end g) (List.length g))
    (chunks_fuel fuel BATCH_SIZE (enumerate_from s l)).

(** Every request carries the module timeout and every sleep lasts one
    second. *)
Definition event_ok (e : event) : Prop :=
  match e with
  | EvGet _ t => t = TIMEOUT
  | EvSleep d => d = 1%Z
  | EvLog _ _ => True
  end.

(** Running totals of a list of sizes. *)
Fixpoint running_total (acc : nat) (sizes : list nat) : list nat :=
  match sizes with
  | [] => []
  | n :: sizes' => (acc + n) :: running_total (acc + n) sizes'
  end.

(** The scheduling discipline, with [cur] pipelines in flight: a group is
    launched only when none is, it has at most [B] tasks, and only
    launched tasks complete. *)
Fixpoint disciplined (B cur : nat) (log : list run_event) : Prop :=
  match log with
  | [] => True
  | Launch g :: log' =>
      cur = 0 /\ (List.length g <= B)%nat /\ disciplined B (List.length g) log'
  | Completed _ :: log' =>
      match cur with
      | 0 => False
      | S c => disciplined B c log'
      end
  | Progress _ :: log' => disciplined B cur log'
  end.

(** * Properties *)

(** ** Concrete runs *)

Example str_in_marker : str_in "lp-container" "<div class=lp-container>" = true.
Proof. reflexivity. Qed.

Example str_in_absent : str_in "lp-container" "<div class=lp-contain>" = false.
Proof. reflexivity. Qed.

Example str_nat_12 : str_nat 12 = "12".
Proof. reflexivity. Qed.

(** Scenario A of the specification: link found, marker present. *)
Example scenario_A :
  fetch_product_page toy_soup netA efacil_url "12345" "efacil" RETRY_COUNT
    init_state
  = (Returned ("12345", "https://www.efacil.com.br/p/12345", Sim),
     mkState 2
       [EvGet "https://www.efacil.com.br/loja/busca/?searchTerm=12345" 30;
        EvGet "https://www.efacil.com.br/p/12345" 30]).
Proof. vm_compute. reflexivity. Qed.

(** Scenario B: link found, marker absent. *)
Example scenario_B :
  fst (fetch_product_page toy_soup netB efacil_url "12345" "efacil"
         RETRY_COUNT init_state)
  = Returned ("12345", "https://www.efacil.com.br/p/12345", Nao).
Proof. vm_compute. reflexivity. Qed.

(** A timeout, then an HTTP 503, then scenario A: two sleeps, three search
    requests, one product request. *)
Example recovers_on_third_attempt :
  let net n :=
    match n with
    | 0 => GetRaises TimeoutError
    | 1 => GetResponse 503 (Text EmptyString)
    | 2 => GetResponse 200 (Text search_page)
    | _ => GetResponse 200 (Text marked_page)
    end in
  let run :=
    fetch_product_page toy_soup net efacil_url "12345" "efacil" RETRY_COUNT
      init_state in
  fst run = Returned ("12345", "https://www.efacil.com.br/p/12345", Sim) /\
  List.length (gets (events (snd run))) = 4 /\
  List.length (sleeps (events (snd run))) = 2.
Proof. cbv zeta. repeat split; vm_compute; reflexivity. Qed.

(** Fifty-one identifiers make two groups, of fifty and of one. *)
Example fifty_one_identifiers :
  let run :=
    process_skus toy_soup (fun _ => netA) (fun _ _ => 0) "efacil"
      (repeat "12345" 51) in
  launches (snd run) = [seq 0 50; [50]] /\
  progress_values (snd run) = (repeat 50 50 ++ [51])%list.
Proof. cbv zeta. split; vm_compute; reflexivity. Qed.

(** ** The monad *)

Lemma filter_app_single {A} (f : A -> bool) (l : list A) (x : A) :
  filter f (l ++ [x]) = (filter f l ++ (if f x then [x] else []))%list.
Proof. rewrite filter_app. reflexivity. Qed.

Lemma io_events_app (l1 l2 : list event) :
  io_events (l1 ++ l2) = (io_events l1 ++ io_events l2)%list.
Proof. apply filter_app. Qed.

Lemma io_events_logs (l : list event) :
  forallb is_log l = true -> io_events l = [].
Proof.
  induction l as [|e l IH]; simpl; intros H; [reflexivity|].
  apply andb_prop in H. destruct H as [He Hl].
  unfold io_events in *. simpl. rewrite He. simpl. auto.
Qed.

Ltac run_io :=
  unfold load, logging_warning, logging_error, asyncio_sleep, emit, bind,
    ret, raise;
  cbv beta iota; cbn [requests events status body].

Ltac close_trace :=
  rewrite <- ?app_assoc; eexists; (split; [|reflexivity]); reflexivity.

(** ** The check stage *)

(** The check stage, run from any state: its result, and what it adds to
    the trace. *)
Lemma check_product_content_run net url code s :
  exists logs,
    forallb is_log logs = true /\
    check_product_content net url code s
    = (Returned (code, url, check_spec (net (requests s))),
       mkState (S (requests s)) (events s ++ EvGet url TIMEOUT :: logs)%list).
Proof.
  unfold check_product_content, try_except, session_get, response_text,
    check_spec.
  run_io.
  destruct (net (requests s)) as [e | st tx]; run_io.
  - destruct e; run_io; close_trace.
  - destruct (st =? 200)%Z; run_io.
    + destruct tx as [html | e]; run_io.
      * exists []. split; reflexivity.
      * destruct e; run_io; close_trace.
    + exists []. split; reflexivity.
Qed.

(** ** The search stage, one attempt *)

Lemma transient_retried BeautifulSoup (r : get_result) :
  transient r = true -> retried BeautifulSoup r = true.
Proof.
  unfold transient, retried. destruct r as [e | st tx]; [auto|].
  destruct (st =? 200)%Z; [|auto]. destruct tx; [discriminate | auto].
Qed.

(** An answer after which the search is tried again: the attempt ends
    with the sleep of line 71 and the loop goes on. *)
Lemma loop_body_retried BeautifulSoup net base_url code u attempt s :
  retried BeautifulSoup (net (requests s)) = true ->
  exists logs,
    forallb is_log logs = true /\
    loop_body BeautifulSoup net base_url code "efacil" (Some u) attempt s
    = (Returned None,
       mkState (S (requests s))
         (events s ++ EvGet u TIMEOUT :: logs ++ [EvSleep 1])%list).
Proof.
  unfold retried, loop_body, try_except, search_attempt, search_handler,
    session_get, response_text, call.
  rewrite String.eqb_refl. run_io.
  destruct (net (requests s)) as [e | st tx]; run_io.
  - intros _. destruct e; run_io; close_trace.
  - destruct (st =? 200)%Z.
    + destruct tx as [html | e].
      * destruct (BeautifulSoup html) as [page | e]; [discriminate|].
        intros _. destruct e; run_io; close_trace.
      * intros _. destruct e; run_io; close_trace.
    + intros _. run_io. exists []. split; [reflexivity|].
      rewrite <- !app_assoc. reflexivity.
Qed.

(** Success without a usable link: the attempt returns Erro at once. *)
Lemma loop_body_nolink BeautifulSoup net base_url code u attempt s html :
  net (requests s) = GetResponse 200 (Text html) ->
  usable_link BeautifulSoup html code = Returned None ->
  exists logs,
    forallb is_log logs = true /\
    loop_body BeautifulSoup net base_url code "efacil" (Some u) attempt s
    = (Returned (Some (code, u, Erro)),
       mkState (S (requests s)) (events s ++ EvGet u TIMEOUT :: logs)%list).
Proof.
  intros Hnet Hlink.
  unfold loop_body, try_except, search_attempt, session_get, response_text,
    call, usable_link in *.
  rewrite String.eqb_refl. run_io. rewrite Hnet. run_io.
  change (200 =? 200)%Z with true. run_io.
  destruct (BeautifulSoup html) as [page | e]; [|discriminate].
  apply (f_equal (fun o => match o with
                           | Returned x => x
                           | Raised _ => None
                           end)) in Hlink.
  cbv beta iota in Hlink.
  destruct (page ("btn_skuP" ++ code)) as [tag|].
  - rewrite Hlink. run_io. close_trace.
  - run_io. close_trace.
Qed.

(** Success with a link: the attempt hands over to the check stage. *)
Lemma loop_body_link BeautifulSoup net base_url code u attempt s html href :
  net (requests s) = GetResponse 200 (Text html) ->
  usable_link BeautifulSoup html code = Returned (Some href) ->
  exists logs,
    forallb is_log logs = true /\
    loop_body BeautifulSoup net base_url code "efacil" (Some u) attempt s
    = (Returned (Some (code, base_url ++ href,
                       check_spec (net (S (requests s))))),
       mkState (S (S (requests s)))
         (events s ++ EvGet u TIMEOUT
            :: EvGet (base_url ++ href) TIMEOUT :: logs)%list).
Proof.
  intros Hnet Hlink.
  unfold loop_body, try_except, search_attempt, session_get, response_text,
    call, usable_link in *.
  rewrite String.eqb_refl. run_io. rewrite Hnet. run_io.
  change (200 =? 200)%Z with true. run_io.
  destruct (BeautifulSoup html) as [page | e]; [|discriminate].
  apply (f_equal (fun o => match o with
                           | Returned x => x
                           | Raised _ => None
                           end)) in Hlink.
  cbv beta iota in Hlink.
  destruct (page ("btn_skuP" ++ code)) as [tag|]; [|discriminate].
  rewrite Hlink.
  match goal with
  | |- context [check_product_content ?n ?url ?c ?st] =>
      destruct (check_product_content_run n url c st) as (logs & Hlogs & Hrun);
      rewrite Hrun
  end.
  run_io. exists logs. split; [exact Hlogs|].
  rewrite <- !app_assoc. reflexivity.
Qed.

(** Every answer is of one of the three kinds. *)
Lemma answer_cases BeautifulSoup code (r : get_result) :
  retried BeautifulSoup r = true \/
  exists html, r = GetResponse 200 (Text html) /\
    (usable_link BeautifulSoup html code = Returned None \/
     exists href, usable_link BeautifulSoup html code = Returned (Some href)).
Proof.
  destruct r as [e | st tx]; [now left|].
  unfold retried.
  destruct (Z.eqb_spec st 200) as [-> | Hne]; [|now left].
  destruct tx as [html | e]; [|now left].
  destruct (BeautifulSoup html) as [page | e] eqn:Eparse; [|now left].
  right. exists html. split; [reflexivity|].
  unfold usable_link. rewrite Eparse.
  destruct (page ("btn_skuP" ++ code)) as [tag|]; [|now left].
  destruct (tag_get (attrs tag) "href") as [href|]; eauto.
Qed.

Lemma check_spec_terminal r : terminal (check_spec r).
Proof.
  unfold terminal, check_spec.
  destruct r as [e | st tx]; auto.
  destruct (st =? 200)%Z; auto.
  destruct tx as [html | e]; auto.
  destruct (str_in "lp-container" html); auto.
Qed.

(** With the search URL built, an attempt never raises; what it returns is
    a record of the identifier with one of the three messages. *)
Lemma loop_body_efacil_returns BeautifulSoup net base_url code u attempt s :
  exists r s',
    loop_body BeautifulSoup net base_url code "efacil" (Some u) attempt s
    = (Returned r, s') /\
    (requests s < requests s')%nat /\
    (forall result, r = Some result ->
       rec_code result = code /\ terminal (rec_status result)).
Proof.
  destruct (answer_cases BeautifulSoup code (net (requests s)))
    as [Ht | (html & Hnet & [Hno | (href & Hyes)])].
  - destruct (loop_body_retried BeautifulSoup net base_url code u attempt s Ht)
      as (logs & _ & ->).
    do 2 eexists. split; [reflexivity|]. cbn [requests]. split; [lia|].
    discriminate.
  - destruct (loop_body_nolink BeautifulSoup net base_url code u attempt s html
                Hnet Hno) as (logs & _ & ->).
    do 2 eexists. split; [reflexivity|]. cbn [requests]. split; [lia|].
    intros result [= <-]. split; [reflexivity|]. right; right; reflexivity.
  - destruct (loop_body_link BeautifulSoup net base_url code u attempt s html href
                Hnet Hyes) as (logs & _ & ->).
    do 2 eexists. split; [reflexivity|]. cbn [requests]. split; [lia|].
    intros result [= <-]. split; [reflexivity|]. apply check_spec_terminal.
Qed.

(** ** The search stage, the whole loop *)

Lemma gets_io_events (l : list event) : gets l = gets (io_events l).
Proof.
  unfold gets, io_events.
  induction l as [|e l IH]; [reflexivity|].
  destruct e; cbn [filter is_get is_log negb]; rewrite IH; reflexivity.
Qed.

Lemma sleeps_io_events (l : list event) : sleeps l = sleeps (io_events l).
Proof.
  unfold sleeps, io_events.
  induction l as [|e l IH]; [reflexivity|].
  destruct e; cbn [filter is_sleep is_log negb]; rewrite IH; reflexivity.
Qed.

Lemma gets_rounds u t d (n : nat) :
  List.length (gets (List.concat (repeat [EvGet u t; EvSleep d] n))) = n.
Proof. induction n as [|n IH]; [reflexivity|]. cbn. f_equal. exact IH. Qed.

Lemma sleeps_rounds u t d (n : nat) :
  List.length (sleeps (List.concat (repeat [EvGet u t; EvSleep d] n))) = n.
Proof. induction n as [|n IH]; [reflexivity|]. cbn. f_equal. exact IH. Qed.

(** As long as the answers are of the retried kind, every attempt of the loop is one
    GET followed by one sleep, and the loop falls through to line 72. *)
Lemma for_attempts_retried BeautifulSoup net base_url code u after attempts :
  forall s,
    (forall k, (k < List.length attempts)%nat ->
               retried BeautifulSoup (net (requests s + k)) = true) ->
    exists s1,
      for_attempts (loop_body BeautifulSoup net base_url code "efacil" (Some u))
        attempts after s = after s1 /\
      requests s1 = requests s + List.length attempts /\
      io_events (events s1)
      = (io_events (events s)
         ++ List.concat (repeat [EvGet u TIMEOUT; EvSleep 1] (List.length attempts)))%list.
Proof.
  induction attempts as [|a rest IH]; intros s Hnet.
  - exists s. cbn. rewrite Nat.add_0_r, app_nil_r. auto.
  - assert (H0 : retried BeautifulSoup (net (requests s)) = true).
    { rewrite <- (Nat.add_0_r (requests s)). apply Hnet. cbn. lia. }
    destruct (loop_body_retried BeautifulSoup net base_url code u a s H0)
      as (logs & Hlogs & Hbody).
    cbn [for_attempts]. unfold bind at 1. rewrite Hbody.
    match goal with
    | |- context [for_attempts _ rest after ?st] =>
        destruct (IH st) as (s1 & Hrun & Hreq & Hev)
    end.
    { intros k Hk. cbn [requests].
      replace (S (requests s) + k) with (requests s + S k) by lia.
      apply Hnet. cbn. lia. }
    exists s1. split; [exact Hrun|]. cbn [requests events] in *.
    split; [cbn; lia|].
    rewrite Hev. rewrite !io_events_app.
    change (EvGet u TIMEOUT :: logs ++ [EvSleep 1])%list
      with ([EvGet u TIMEOUT] ++ logs ++ [EvSleep 1])%list.
    rewrite !io_events_app, (io_events_logs logs Hlogs).
    cbn [List.length repeat List.concat]. rewrite <- !app_assoc. reflexivity.
Qed.

(** Without a search URL nothing is fetched: the read of line 51 raises,
    the handler of line 70 raises again while formatting its message, and
    with no attempt at all the read of line 72 raises. *)
Lemma fetch_unbound_search_url BeautifulSoup net base_url code opt retries s :
  String.eqb opt "efacil" = false ->
  fetch_product_page BeautifulSoup net base_url code opt retries s
  = (Raised (UnboundLocalError "search_url"), s).
Proof.
  intros Hopt. unfold fetch_product_page, search_url_of. rewrite Hopt.
  destruct (range retries) as [|a rest]; [reflexivity|].
  cbn [for_attempts]. unfold bind at 1.
  unfold loop_body, try_except, search_attempt, search_handler.
  run_io. reflexivity.
Qed.

(** With option "efacil" the pipeline never raises. *)
Lemma fetch_efacil_returns BeautifulSoup net base_url code retries s :
  exists r s',
    fetch_product_page BeautifulSoup net base_url code "efacil" retries s
    = (Returned r, s') /\
    rec_code r = code /\ terminal (rec_status r).
Proof.
  unfold fetch_product_page, search_url_of. rewrite String.eqb_refl.
  set (u := base_url ++ "/loja/busca/?searchTerm=" ++ code).
  generalize (range retries) as attempts. intros attempts. revert s.
  induction attempts as [|a rest IH]; intros s.
  - do 2 eexists. split; [reflexivity|]. split; [reflexivity|].
    right; right; reflexivity.
  - cbn [for_attempts]. unfold bind at 1.
    destruct (loop_body_efacil_returns BeautifulSoup net base_url code u a s)
      as (r & s' & -> & _ & Hr).
    destruct r as [result|].
    + destruct (Hr result eq_refl) as [Hc Ht].
      do 2 eexists. split; [reflexivity|]. auto.
    + apply IH.
Qed.

(** Whatever the option, a record that comes back carries the identifier
    and one of the three messages. *)
Lemma fetch_returned_record BeautifulSoup net base_url code opt retries s r s' :
  fetch_product_page BeautifulSoup net base_url code opt retries s
  = (Returned r, s') ->
  rec_code r = code /\ terminal (rec_status r).
Proof.
  destruct (String.eqb_spec opt "efacil") as [-> | Hne].
  - destruct (fetch_efacil_returns BeautifulSoup net base_url code retries s)
      as (r0 & s0 & -> & Hc & Ht).
    intros [= <- <-]. auto.
  - rewrite fetch_unbound_search_url by (apply String.eqb_neq; exact Hne).
    discriminate.
Qed.

(** ** Completion order *)

Lemma take_at_some {A} (l : list A) :
  forall j, (j < List.length l)%nat -> exists x r, take_at j l = Some (x, r).
Proof.
  induction l as [|y l IH]; intros j Hj; [cbn in Hj; lia|].
  destruct j as [|j]; cbn.
  - eauto.
  - destruct (IH j) as (x & r & ->); [cbn in Hj; lia|]. eauto.
Qed.

Lemma take_at_perm {A} (l : list A) :
  forall j x r, take_at j l = Some (x, r) -> Permutation l (x :: r).
Proof.
  induction l as [|y l IH]; intros j x r H; [discriminate|].
  destruct j as [|j]; cbn in H.
  - injection H as <- <-. apply Permutation_refl.
  - destruct (take_at j l) as [[z r']|] eqn:E; [|discriminate].
    injection H as <- <-.
    apply perm_trans with (y :: z :: r').
    + apply perm_skip. eapply IH. exact E.
    + apply perm_swap.
Qed.

Lemma completion_order_perm {A} (pick : nat -> nat) (fuel : nat) :
  forall k (pending : list A),
    List.length pending = fuel ->
    Permutation (completion_order pick k fuel pending) pending.
Proof.
  induction fuel as [|fuel IH]; intros k pending Hlen.
  - destruct pending; [apply perm_nil | discriminate].
  - cbn [completion_order].
    destruct (take_at_some pending (pick k mod List.length pending))
      as (x & r & E).
    { apply Nat.mod_upper_bound. lia. }
    rewrite E. pose proof (take_at_perm _ _ _ _ E) as HP.
    apply Permutation_sym. eapply perm_trans; [exact HP|].
    apply perm_skip. apply Permutation_sym. apply IH.
    apply Permutation_length in HP. cbn in HP. lia.
Qed.

Lemma as_completed_perm {A} (pick : nat -> nat) (tasks : list A) :
  Permutation (as_completed pick tasks) tasks.
Proof. apply completion_order_perm. reflexivity. Qed.

Lemma as_completed_length {A} (pick : nat -> nat) (tasks : list A) :
  List.length (as_completed pick tasks) = List.length tasks.
Proof. apply Permutation_length, as_completed_perm. Qed.

(** ** Groups *)

Lemma chunks_fuel_nil {A} (fuel size : nat) :
  chunks_fuel fuel size (@nil A) = [].
Proof. destruct fuel; reflexivity. Qed.

Lemma chunks_fuel_irrel {A} (size : nat) :
  (1 <= size)%nat ->
  forall f1 f2 (l : list A),
    (List.length l <= f1)%nat -> (List.length l <= f2)%nat ->
    chunks_fuel f1 size l = chunks_fuel f2 size l.
Proof.
  intros Hsize. induction f1 as [|f1 IH]; intros f2 l H1 H2.
  - destruct l; [|cbn in H1; lia]. now rewrite !chunks_fuel_nil.
  - destruct l as [|x l]; [now rewrite !chunks_fuel_nil|].
    destruct f2 as [|f2]; [cbn in H2; lia|].
    cbn [chunks_fuel]. f_equal.
    apply IH; rewrite length_skipn; cbn [List.length] in *; lia.
Qed.

Lemma chunks_full {A} (size : nat) (g rest : list A) :
  (1 <= size)%nat -> List.length g = size ->
  chunks size (g ++ rest) = g :: chunks size rest.
Proof.
  intros Hsize Hg. unfold chunks.
  destruct g as [|x g]; [cbn in Hg; lia|].
  rewrite length_app. cbn [List.length Nat.add app chunks_fuel].
  change (x :: g ++ rest)%list with ((x :: g) ++ rest)%list.
  rewrite firstn_app, skipn_app, Hg, Nat.sub_diag.
  rewrite firstn_all2, skipn_all2 by lia.
  cbn [firstn skipn]. rewrite app_nil_r. f_equal.
  apply chunks_fuel_irrel; [exact Hsize | lia | lia].
Qed.

Lemma chunks_short {A} (size : nat) (g : list A) :
  g <> [] -> (List.length g <= size)%nat -> chunks size g = [g].
Proof.
  intros Hne Hle. unfold chunks.
  destruct g as [|x g]; [congruence|].
  cbn [List.length chunks_fuel].
  rewrite firstn_all2, skipn_all2 by exact Hle.
  now rewrite chunks_fuel_nil.
Qed.

Lemma concat_chunks_fuel {A} (size : nat) :
  (1 <= size)%nat ->
  forall fuel (l : list A),
    (List.length l <= fuel)%nat -> List.concat (chunks_fuel fuel size l) = l.
Proof.
  intros Hsize. induction fuel as [|fuel IH]; intros l Hl.
  - destruct l; [reflexivity | cbn in Hl; lia].
  - destruct l as [|x l]; [reflexivity|].
    cbn [chunks_fuel List.concat]. rewrite IH.
    + apply firstn_skipn.
    + rewrite length_skipn. cbn [List.length] in *. lia.
Qed.

Lemma concat_chunks {A} (size : nat) (l : list A) :
  (1 <= size)%nat -> List.concat (chunks size l) = l.
Proof. intros H. apply concat_chunks_fuel; [exact H | lia]. Qed.

Lemma chunks_fuel_bounds {A} (size : nat) :
  (1 <= size)%nat ->
  forall fuel (l : list A),
    Forall (fun g => (1 <= List.length g <= size)%nat) (chunks_fuel fuel size l).
Proof.
  intros Hsize. induction fuel as [|fuel IH]; intros l; [constructor|].
  destruct l as [|x l]; [constructor|].
  cbn [chunks_fuel]. constructor; [|apply IH].
  rewrite length_firstn. cbn [List.length]. lia.
Qed.

Lemma chunks_bounds {A} (size : nat) (l : list A) :
  (1 <= size)%nat ->
  Forall (fun g => (1 <= List.length g <= size)%nat) (chunks size l).
Proof. intros H. now apply chunks_fuel_bounds. Qed.

Lemma BATCH_SIZE_pos : (1 <= BATCH_SIZE)%nat.
Proof. unfold BATCH_SIZE. lia. Qed.

(** ** The scheduler *)

Lemma enumerate_from_cons s x l :
  enumerate_from s (x :: l) = (s, x) :: enumerate_from (S s) l.
Proof. reflexivity. Qed.

Lemma map_snd_enumerate_from l : forall s, map snd (enumerate_from s l) = l.
Proof.
  induction l as [|x l IH]; intros s; [reflexivity|].
  rewrite enumerate_from_cons. cbn [map snd]. now rewrite IH.
Qed.

Lemma map_fst_enumerate_from l :
  forall s, map fst (enumerate_from s l) = seq s (List.length l).
Proof.
  induction l as [|x l IH]; intros s; [reflexivity|].
  rewrite enumerate_from_cons. cbn [map fst List.length seq]. now rewrite IH.
Qed.

Lemma last_index_snoc acc i code : last_index (acc ++ [(i, code)]) = i.
Proof. unfold last_index. now rewrite last_last. Qed.

Section RunFacts.

Variable BeautifulSoup : string -> outcome Soup.
Variable net : nat -> nat -> get_result.
Variable sched : nat -> nat -> nat.
Variables base_url opt : string.

(** The drain of a group that comes back: one record per task, in the
    order given, and after each completion a call of the callback. *)
Lemma await_all_returned i :
  forall order results log rs log',
    await_all BeautifulSoup net base_url opt i order results log
    = (Returned rs, log') ->
    map Returned rs
    = (map Returned results
       ++ map (run_task BeautifulSoup net base_url opt) order)%list /\
    log' = (log ++ flat_map (fun t => [Completed (fst t); Progress (i + 1)])
                     order)%list.
Proof.
  induction order as [|t order IH]; intros results log rs log' H.
  - cbn in H. injection H as <- <-. cbn. now rewrite !app_nil_r.
  - cbn [await_all] in H.
    destruct (run_task BeautifulSoup net base_url opt t) as [r|e] eqn:Er;
      [|discriminate].
    apply IH in H. destruct H as [Hrs Hlog].
    split.
    + rewrite Hrs, map_app. cbn [map]. rewrite Er, <- app_assoc. reflexivity.
    + rewrite Hlog. cbn [flat_map]. rewrite <- !app_assoc. reflexivity.
Qed.

Lemma flush_returned i tasks results log rs log' :
  last_index tasks = i ->
  await_all BeautifulSoup net base_url opt i (as_completed (sched i) tasks)
    results (log ++ [Launch (map fst tasks)])%list = (Returned rs, log') ->
  map Returned rs
  = (map Returned results
     ++ map (run_task BeautifulSoup net base_url opt) (group_order sched tasks))%list /\
  log' = (log ++ group_log sched tasks)%list.
Proof.
  intros Hi H. apply await_all_returned in H. destruct H as [Hrs Hlog].
  unfold group_log, group_end, group_order. rewrite Hi.
  split; [exact Hrs|]. rewrite Hlog, <- app_assoc. reflexivity.
Qed.

(** The loop of [process_skus], when it comes back: the groups are the
    chunks of the enumerated input, drained one after the other. *)
Lemma process_loop_returned n :
  forall l s acc results log rs log',
    l <> [] -> s + List.length l = n ->
    (List.length acc < BATCH_SIZE)%nat ->
    process_loop BeautifulSoup net sched base_url opt n (enumerate_from s l)
      acc results log = (Returned rs, log') ->
    map Returned rs
    = (map Returned results
       ++ map (run_task BeautifulSoup net base_url opt)
            (flat_map (group_order sched)
               (chunks BATCH_SIZE (acc ++ enumerate_from s l))))%list /\
    log' = (log ++ flat_map (group_log sched)
                     (chunks BATCH_SIZE (acc ++ enumerate_from s l)))%list.
Proof.
  induction l as [|x l IH]; intros s acc results log rs log' Hne Hn Hacc H;
    [congruence|].
  rewrite enumerate_from_cons in *. cbn [process_loop] in H.
  cbn [List.length] in Hn.
  assert (Hlen : List.length (acc ++ [(s, x)]) = S (List.length acc)).
  { rewrite length_app. cbn. lia. }
  replace (acc ++ (s, x) :: enumerate_from (S s) l)%list
    with ((acc ++ [(s, x)]) ++ enumerate_from (S s) l)%list
    by (rewrite <- app_assoc; reflexivity).
  destruct l as [|y l].
  - (* the last identifier: the group is flushed *)
    cbn [List.length] in Hn.
    replace (s =? n - 1)%nat with true in H
      by (symmetry; apply Nat.eqb_eq; lia).
    rewrite orb_true_r in H.
    destruct (await_all _ _ _ _ _ _ _ _) as [[rs1|e] log1] eqn:Ea in H;
      [|discriminate].
    cbn [process_loop enumerate_from List.length seq combine] in H.
    injection H as <- <-.
    apply flush_returned in Ea; [|apply last_index_snoc].
    cbn [enumerate_from List.length seq combine]. rewrite app_nil_r.
    rewrite chunks_short; [| now destruct acc | rewrite Hlen; lia].
    cbn [flat_map]. rewrite !app_nil_r. exact Ea.
  - replace (s =? n - 1)%nat with false in H
      by (symmetry; apply Nat.eqb_neq; cbn [List.length] in Hn; lia).
    rewrite orb_false_r in H.
    destruct (Nat.leb_spec BATCH_SIZE (List.length (acc ++ [(s, x)])))
      as [Hfull | Hroom].
    + destruct (await_all _ _ _ _ _ _ _ _) as [[rs1|e] log1] eqn:Ea in H;
        [|discriminate].
      apply flush_returned in Ea; [|apply last_index_snoc].
      destruct Ea as [Hrs1 Hlog1].
      apply (IH (S s) []) in H;
        [| discriminate | lia | apply BATCH_SIZE_pos].
      destruct H as [Hrs Hlog]. cbn [app] in Hrs, Hlog.
      rewrite chunks_full; [| apply BATCH_SIZE_pos | lia].
      cbn [flat_map]. split.
      * rewrite Hrs, Hrs1, map_app, <- app_assoc. reflexivity.
      * rewrite Hlog, Hlog1, <- app_assoc. reflexivity.
    + apply (IH (S s) (acc ++ [(s, x)])%list) in H;
        [exact H | discriminate | lia | exact Hroom].
Qed.

End RunFacts.

(** A run of [process_skus] that comes back, for a key of the table. *)
Lemma process_skus_returned BeautifulSoup net sched opt codes rs log :
  truthy (dict_get base_urls opt EmptyString) = true ->
  process_skus BeautifulSoup net sched opt codes = (Returned rs, log) ->
  map Returned rs
  = map (run_task BeautifulSoup net (dict_get base_urls opt EmptyString) opt)
      (flat_map (group_order sched) (groups_of codes)) /\
  log = flat_map (group_log sched) (groups_of codes).
Proof.
  intros Hkey H. unfold process_skus in H. rewrite Hkey in H. cbn [negb] in H.
  unfold groups_of.
  destruct codes as [|c codes].
  - cbn in H. injection H as <- <-. split; reflexivity.
  - unfold enumerate in *.
    apply process_loop_returned in H;
      [exact H | discriminate | reflexivity | apply BATCH_SIZE_pos].
Qed.

(** *** Runs that come back, runs that do not *)

Lemma process_loop_all_return BeautifulSoup net sched base_url opt n :
  (forall t, exists r, run_task BeautifulSoup net base_url opt t = Returned r) ->
  forall items tasks results log,
  exists rs log',
    process_loop BeautifulSoup net sched base_url opt n items tasks results log
    = (Returned rs, log').
Proof.
  intros Hrun.
  assert (Hawait : forall i order results log, exists rs log',
             await_all BeautifulSoup net base_url opt i order results log
             = (Returned rs, log')).
  { induction order as [|t order IH]; intros results log; cbn [await_all].
    - eauto.
    - destruct (Hrun t) as (r & ->). apply IH. }
  induction items as [|[i code] items IH]; intros tasks results log;
    cbn [process_loop]; [eauto|].
  destruct (_ || _).
  - match goal with
    | |- context [await_all _ _ _ _ ?i ?o ?r ?l] =>
        destruct (Hawait i o r l) as (rs1 & log1 & ->)
    end.
    apply IH.
  - apply IH.
Qed.

(** With option "efacil" a run always comes back. *)
Lemma process_skus_efacil_returns BeautifulSoup net sched codes :
  exists rs log,
    process_skus BeautifulSoup net sched "efacil" codes = (Returned rs, log).
Proof.
  unfold process_skus.
  change (negb (truthy (dict_get base_urls "efacil" EmptyString))) with false.
  cbv iota. apply process_loop_all_return.
  intros t. unfold run_task.
  match goal with
  | |- context [fetch_product_page ?sf ?n ?b ?c _ ?r ?s] =>
      destruct (fetch_efacil_returns sf n b c r s) as (r0 & s0 & -> & _)
  end.
  exists r0. reflexivity.
Qed.

(** When every pipeline raises, the first drain raises. *)
Lemma process_loop_all_raise BeautifulSoup net sched base_url opt n e :
  (forall t, run_task BeautifulSoup net base_url opt t = Raised e) ->
  forall l s tasks results log,
    l <> [] -> s + List.length l = n ->
    exists i done,
      process_loop BeautifulSoup net sched base_url opt n (enumerate_from s l)
        tasks results log
      = (Raised e, (log ++ [Launch i; Completed done])%list).
Proof.
  intros Hrun.
  assert (Hawait : forall i order results log, order <> [] -> exists done,
             await_all BeautifulSoup net base_url opt i order results log
             = (Raised e, (log ++ [Completed done])%list)).
  { intros i [|t order] results log Hne; [congruence|].
    cbn [await_all]. rewrite Hrun. eauto. }
  induction l as [|x l IH]; intros s tasks results log Hne Hn; [congruence|].
  rewrite enumerate_from_cons. cbn [process_loop]. cbn [List.length] in Hn.
  set (tasks' := (tasks ++ [(s, x)])%list).
  assert (Htasks : as_completed (sched s) tasks' <> []).
  { intros E. apply (f_equal (@List.length _)) in E.
    rewrite as_completed_length in E. unfold tasks' in E.
    rewrite length_app in E. cbn in E. lia. }
  destruct (_ || _) eqn:Eflush.
  - destruct (Hawait s (as_completed (sched s) tasks') results
                (log ++ [Launch (map fst tasks')])%list Htasks) as (d & ->).
    exists (map fst tasks'), d. rewrite <- app_assoc. reflexivity.
  - apply IH; [|lia].
    intros ->. cbn [List.length] in Hn.
    apply orb_false_elim in Eflush. destruct Eflush as [_ Hi].
    apply Nat.eqb_neq in Hi. lia.
Qed.

(** *** Observations on the log of a run *)

Lemma progress_values_app l1 l2 :
  progress_values (l1 ++ l2) = (progress_values l1 ++ progress_values l2)%list.
Proof.
  induction l1 as [|[g|i|v] l1 IH]; cbn; rewrite ?IH; reflexivity.
Qed.

Lemma launches_app l1 l2 :
  launches (l1 ++ l2) = (launches l1 ++ launches l2)%list.
Proof.
  induction l1 as [|[g|i|v] l1 IH]; cbn; rewrite ?IH; reflexivity.
Qed.

Lemma in_flight_app l1 l2 :
  in_flight (l1 ++ l2) = (in_flight l1 + in_flight l2)%Z.
Proof.
  induction l1 as [|[g|i|v] l1 IH]; cbn [app in_flight]; rewrite ?IH; lia.
Qed.

Lemma progress_values_group sched g :
  progress_values (group_log sched g) = repeat (group_end g) (List.length g).
Proof.
  unfold group_log, group_order. cbn [progress_values].
  rewrite <- (as_completed_length (sched (last_index g)) g).
  induction (as_completed (sched (last_index g)) g) as [|t order IH];
    [reflexivity|].
  cbn. now rewrite IH.
Qed.

Lemma launches_group sched g : launches (group_log sched g) = [map fst g].
Proof.
  unfold group_log. cbn [launches]. f_equal.
  induction (group_order sched g) as [|t order IH]; [reflexivity|].
  cbn. exact IH.
Qed.

Lemma completion_values_group sched g rest :
  completion_values (group_log sched g ++ rest)
  = (map (fun t => (fst t, group_end g)) (group_order sched g)
     ++ completion_values rest)%list.
Proof.
  unfold group_log. cbn [app].
  induction (group_order sched g) as [|t order IH].
  - cbn. reflexivity.
  - cbn in *. f_equal. exact IH.
Qed.

Lemma progress_values_groups sched groups :
  progress_values (flat_map (group_log sched) groups)
  = flat_map (fun g => repeat (group_end g) (List.length g)) groups.
Proof.
  induction groups as [|g groups IH]; [reflexivity|].
  cbn [flat_map]. now rewrite progress_values_app, progress_values_group, IH.
Qed.

Lemma launches_groups sched groups :
  launches (flat_map (group_log sched) groups) = map (map fst) groups.
Proof.
  induction groups as [|g groups IH]; [reflexivity|].
  cbn [flat_map map]. now rewrite launches_app, launches_group, IH.
Qed.

Lemma completion_values_groups sched groups :
  completion_values (flat_map (group_log sched) groups)
  = flat_map (fun g => map (fun t => (fst t, group_end g)) (group_order sched g))
      groups.
Proof.
  induction groups as [|g groups IH]; [reflexivity|].
  cbn [flat_map]. now rewrite completion_values_group, IH.
Qed.

(** *** The scheduling discipline *)

Lemma disciplined_prefix B :
  forall log cur p q,
    disciplined B cur log -> (cur <= B)%nat -> log = (p ++ q)%list ->
    (0 <= Z.of_nat cur + in_flight p <= Z.of_nat B)%Z /\
    (forall g q', q = Launch g :: q' -> (Z.of_nat cur + in_flight p = 0)%Z).
Proof.
  induction log as [|e log IH]; intros cur p q Hd Hcur Hsplit.
  - destruct p; [|discriminate]. cbn in Hsplit. subst q. cbn.
    split; [lia | discriminate].
  - destruct p as [|e' p].
    + cbn in Hsplit. subst q. cbn [in_flight]. split; [lia|].
      intros g q' [= -> ->]. cbn in Hd. lia.
    + cbn in Hsplit. injection Hsplit as <- ->.
      destruct e as [g|i|v]; cbn [disciplined in_flight] in *.
      * destruct Hd as (-> & Hg & Hd).
        destruct (IH _ p q Hd Hg eq_refl) as [Hb Hl].
        split; [lia|]. intros g' q' E. specialize (Hl g' q' E). lia.
      * destruct cur as [|c]; [contradiction|].
        destruct (IH _ p q Hd ltac:(lia) eq_refl) as [Hb Hl].
        split; [lia|]. intros g' q' E. specialize (Hl g' q' E). lia.
      * exact (IH _ p q Hd Hcur eq_refl).
Qed.

Lemma disciplined_drain B i :
  forall (order : list task) cur rest,
    (List.length order <= cur)%nat ->
    disciplined B (cur - List.length order) rest ->
    disciplined B cur
      (flat_map (fun t => [Completed (fst t); Progress i]) order ++ rest).
Proof.
  induction order as [|t order IH]; intros cur rest Hle Hrest.
  - cbn in *. now rewrite Nat.sub_0_r in Hrest.
  - cbn [flat_map app List.length disciplined] in *.
    destruct cur as [|c]; [lia|]. apply IH; [lia|exact Hrest].
Qed.

Lemma disciplined_groups B sched groups :
  Forall (fun g : list task => (List.length g <= B)%nat) groups ->
  disciplined B 0 (flat_map (group_log sched) groups).
Proof.
  induction 1 as [|g groups Hg _ IH]; [exact I|].
  cbn [flat_map]. unfold group_log at 1. cbn [app disciplined].
  rewrite length_map. split; [reflexivity|]. split; [exact Hg|].
  apply disciplined_drain.
  - unfold group_order. now rewrite as_completed_length.
  - unfold group_order. now rewrite as_completed_length, Nat.sub_diag.
Qed.

(** *** Positions *)

Lemma length_enumerate_from l : forall s,
  List.length (enumerate_from s l) = List.length l.
Proof.
  induction l as [|x l IH]; intros s; [reflexivity|].
  rewrite enumerate_from_cons. cbn [List.length]. now rewrite IH.
Qed.

Lemma firstn_enumerate_from l : forall k s,
  firstn k (enumerate_from s l) = enumerate_from s (firstn k l).
Proof.
  induction l as [|x l IH]; intros k s; destruct k; try reflexivity.
  rewrite enumerate_from_cons. cbn [firstn].
  now rewrite enumerate_from_cons, IH.
Qed.

Lemma skipn_enumerate_from l : forall k s,
  skipn k (enumerate_from s l)
  = enumerate_from (s + Nat.min k (List.length l)) (skipn k l).
Proof.
  induction l as [|x l IH]; intros k s.
  - destruct k; reflexivity.
  - destruct k as [|k].
    + cbn [skipn Nat.min]. now rewrite Nat.add_0_r.
    + rewrite enumerate_from_cons. cbn [skipn List.length Nat.min].
      rewrite IH. f_equal. lia.
Qed.

Lemma group_end_enumerate_from l : forall s,
  l <> [] -> group_end (enumerate_from s l) = s + List.length l.
Proof.
  unfold group_end, last_index.
  induction l as [|x l IH]; intros s Hne; [congruence|].
  destruct l as [|y l].
  - cbn. lia.
  - rewrite enumerate_from_cons.
    change (last ((s, x) :: enumerate_from (S s) (y :: l)) (0, EmptyString))
      with (last (enumerate_from (S s) (y :: l)) (0, EmptyString)).
    rewrite IH by discriminate. cbn [List.length]. lia.
Qed.

Lemma values_from_cons fuel s x l :
  values_from (S fuel) s (x :: l)
  = (repeat (s + Nat.min BATCH_SIZE (S (List.length l)))
       (Nat.min BATCH_SIZE (S (List.length l)))
     ++ values_from fuel (s + Nat.min BATCH_SIZE (S (List.length l)))
          (skipn BATCH_SIZE (x :: l)))%list.
Proof.
  unfold values_from. rewrite enumerate_from_cons. cbn [chunks_fuel flat_map].
  rewrite <- enumerate_from_cons.
  rewrite firstn_enumerate_from, skipn_enumerate_from.
  rewrite group_end_enumerate_from, length_enumerate_from, length_firstn.
  - reflexivity.
  - pose proof BATCH_SIZE_pos. destruct BATCH_SIZE; [lia | discriminate].
Qed.

Lemma values_from_lower fuel : forall s l,
  Forall (fun v => (s <= v)%nat) (values_from fuel s l).
Proof.
  induction fuel as [|fuel IH]; intros s l; [constructor|].
  destruct l as [|x l]; [constructor|].
  rewrite values_from_cons. apply Forall_app. split.
  - apply Forall_forall. intros v Hv. apply repeat_spec in Hv. lia.
  - eapply Forall_impl; [|apply IH]. cbn beta. intros v Hv. lia.
Qed.

Lemma values_from_sorted fuel : forall s l,
  StronglySorted le (values_from fuel s l).
Proof.
  induction fuel as [|fuel IH]; intros s l; [constructor|].
  destruct l as [|x l]; [constructor|].
  rewrite values_from_cons.
  generalize (Nat.min BATCH_SIZE (S (List.length l))) at 2 as k.
  induction k as [|k IHk]; cbn [repeat app]; [apply IH|].
  constructor; [exact IHk|].
  apply Forall_app. split.
  - apply Forall_forall. intros v Hv. apply repeat_spec in Hv. lia.
  - apply values_from_lower.
Qed.

Lemma last_cons_default {A} (l : list A) :
  forall y d d', last (y :: l) d = last (y :: l) d'.
Proof.
  induction l as [|z l IH]; intros y d d'; [reflexivity|].
  change (last (y :: z :: l) d) with (last (z :: l) d).
  change (last (y :: z :: l) d') with (last (z :: l) d').
  apply IH.
Qed.

Lemma last_app_default {A} (a b : list A) d :
  last (a ++ b) d = last b (last a d).
Proof.
  destruct b as [|y b]; [now rewrite app_nil_r|].
  induction a as [|x a IH]; [apply last_cons_default|].
  destruct a as [|z a].
  - cbn [app]. change (last (x :: y :: b) d) with (last (y :: b) d).
    apply last_cons_default.
  - change (last ((x :: z :: a) ++ y :: b) d)
      with (last ((z :: a) ++ y :: b) d).
    rewrite IH. apply last_cons_default.
Qed.

Lemma last_repeat {A} (v d : A) k : (1 <= k)%nat -> last (repeat v k) d = v.
Proof.
  induction k as [|k IH]; intros Hk; [lia|].
  destruct k; [reflexivity|].
  change (last (repeat v (S (S k))) d) with (last (repeat v (S k)) d).
  apply IH. lia.
Qed.

Lemma values_from_last fuel : forall s l,
  (List.length l <= fuel)%nat ->
  last (values_from fuel s l) s = s + List.length l.
Proof.
  induction fuel as [|fuel IH]; intros s l Hl.
  - destruct l; [cbn; lia | cbn in Hl; lia].
  - destruct l as [|x l]; [cbn; lia|].
    rewrite values_from_cons, last_app_default.
    pose proof BATCH_SIZE_pos as HB.
    rewrite last_repeat by lia.
    rewrite IH.
    + rewrite length_skipn. cbn [List.length]. lia.
    + rewrite length_skipn. cbn [List.length] in *. lia.
Qed.

Lemma group_ends_running fuel : forall s l,
  map group_end (chunks_fuel fuel BATCH_SIZE (enumerate_from s l))
  = running_total s
      (map (@List.length _) (chunks_fuel fuel BATCH_SIZE (enumerate_from s l))).
Proof.
  induction fuel as [|fuel IH]; intros s l; [reflexivity|].
  destruct l as [|x l]; [reflexivity|].
  rewrite enumerate_from_cons. cbn [chunks_fuel map running_total].
  rewrite <- enumerate_from_cons.
  rewrite firstn_enumerate_from, skipn_enumerate_from.
  rewrite group_end_enumerate_from, length_enumerate_from, length_firstn.
  - f_equal. apply IH.
  - pose proof BATCH_SIZE_pos. destruct BATCH_SIZE; [lia | discriminate].
Qed.

(** *** Records and identifiers *)

Lemma returned_codes BeautifulSoup net base_url opt :
  forall rs tasks,
    map Returned rs = map (run_task BeautifulSoup net base_url opt) tasks ->
    map rec_code rs = map snd tasks /\
    Forall (fun r => terminal (rec_status r)) rs.
Proof.
  induction rs as [|r rs IH]; intros [|t tasks] H; try discriminate.
  - split; [reflexivity | constructor].
  - cbn [map] in H. injection H as Hr Hrest.
    destruct (IH _ Hrest) as [Hc Ht].
    unfold run_task in Hr.
    destruct (fetch_product_page _ _ _ _ _ _ _) as [o s'] eqn:E.
    cbn [fst] in Hr. subst o.
    apply fetch_returned_record in E. destruct E as [Ec Et].
    split; [cbn [map]; now rewrite Ec, Hc | constructor; assumption].
Qed.

Lemma group_orders_perm sched groups :
  Permutation (flat_map (group_order sched) groups) (List.concat groups).
Proof.
  induction groups as [|g groups IH]; [apply perm_nil|].
  cbn [flat_map List.concat]. apply Permutation_app; [|exact IH].
  apply as_completed_perm.
Qed.

(** * The claims *)

(** ** The search stage *)

Lemma for_attempts_app body pre rest after :
  forall s,
    for_attempts body (pre ++ rest) after s
    = for_attempts body pre (for_attempts body rest after) s.
Proof.
  induction pre as [|a pre IH]; intros s; [reflexivity|].
  cbn [app for_attempts]. unfold bind.
  destruct (body a s) as [[[r|]|e] s']; try reflexivity.
  apply IH.
Qed.

Lemma range_split (retries : Z) (k : nat) :
  (k < Z.to_nat retries)%nat ->
  range retries = (seq 0 k ++ k :: seq (S k) (Z.to_nat retries - S k))%list.
Proof.
  intros Hk. unfold range.
  replace (Z.to_nat retries) with (k + S (Z.to_nat retries - S k)) at 1 by lia.
  rewrite seq_app. reflexivity.
Qed.

(** C1, as amended.  With option "efacil", when each of the [retries]
    answers to the search request is transient (a timeout, another
    exception, a status other than 200), the search is attempted exactly
    [retries] times (3 by default), every attempt is followed by one sleep
    of 1 second, the last attempt included, so that as many sleeps as
    attempts occur, and the record is (code, search URL, Erro). *)
Theorem search_exhausts_retries BeautifulSoup net base_url code retries :
  (forall k, (k < Z.to_nat retries)%nat -> transient (net k) = true) ->
  let search_url := base_url ++ "/loja/busca/?searchTerm=" ++ code in
  let run :=
    fetch_product_page BeautifulSoup net base_url code "efacil" retries init_state in
  fst run = Returned (code, search_url, Erro) /\
  io_events (events (snd run))
  = List.concat (repeat [EvGet search_url TIMEOUT; EvSleep 1] (Z.to_nat retries)) /\
  List.length (gets (events (snd run))) = Z.to_nat retries /\
  List.length (sleeps (events (snd run))) = Z.to_nat retries /\
  Z.to_nat RETRY_COUNT = 3.
Proof.
  intros Hnet search_url run.
  assert (Hrun : fst run = Returned (code, search_url, Erro) /\
                 io_events (events (snd run))
                 = List.concat (repeat [EvGet search_url TIMEOUT; EvSleep 1]
                                  (Z.to_nat retries))).
  { subst run. unfold fetch_product_page, search_url_of.
    rewrite String.eqb_refl. fold search_url.
    match goal with
    | |- context [for_attempts ?b ?a ?k init_state] =>
        destruct (for_attempts_retried BeautifulSoup net base_url code
                    search_url k a init_state) as (s1 & Hs1 & Hreq & Hev)
    end.
    { intros k Hk. unfold range in Hk. rewrite length_seq in Hk.
      cbn [requests init_state Nat.add]. apply transient_retried, Hnet.
      exact Hk. }
    rewrite Hs1. unfold range in Hev. rewrite length_seq in Hev.
    split; [reflexivity|]. exact Hev. }
  destruct Hrun as [Hres Hev].
  split; [exact Hres|]. split; [exact Hev|].
  rewrite gets_io_events, sleeps_io_events, Hev.
  rewrite gets_rounds, sleeps_rounds. auto.
Qed.

Lemma search_exhausts_retries_witness :
  (forall k, (k < Z.to_nat 3)%nat -> transient (net500 k) = true) /\
  List.length (sleeps (events (snd
    (fetch_product_page toy_soup net500 efacil_url "12345" "efacil" 3
       init_state)))) = Z.to_nat 3.
Proof.
  split.
  - intros k _. reflexivity.
  - apply (search_exhausts_retries toy_soup net500 efacil_url "12345" 3).
    intros k _. reflexivity.
Defined.

(** C1, as stated, fails: when the search page answers HTTP 500 to all
    three attempts, three sleeps occur, not two; the last event of the
    pipeline is the sleep after the third attempt. *)
Lemma http500_three_attempts_three_sleeps :
  let search_url := "https://www.efacil.com.br/loja/busca/?searchTerm=12345" in
  let run :=
    fetch_product_page toy_soup net500 efacil_url "12345" "efacil" RETRY_COUNT
      init_state in
  fst run = Returned ("12345", search_url, Erro) /\
  events (snd run)
  = [EvGet search_url 30; EvSleep 1; EvGet search_url 30; EvSleep 1;
     EvGet search_url 30; EvSleep 1] /\
  List.length (gets (events (snd run))) = 3 /\
  List.length (sleeps (events (snd run))) <> 2.
Proof.
  cbv zeta. repeat split; try (vm_compute; reflexivity).
  vm_compute. discriminate.
Qed.

(** C6, as amended.  With option "efacil", when the answer to a search
    attempt is a 200 whose page the parser accepts and which has no
    usable link for the identifier (no anchor with the expected id, or
    one without href), the pipeline returns (code, search URL, Erro) from
    that attempt: no sleep follows it and no further GET is issued.  Here
    the attempt is the [k]-th, after [k] answers of the retried kind;
    with [k = 0] exactly one search attempt occurs. *)
Theorem missing_link_ends_search BeautifulSoup net base_url code retries k html :
  (k < Z.to_nat retries)%nat ->
  (forall j, (j < k)%nat -> retried BeautifulSoup (net j) = true) ->
  net k = GetResponse 200 (Text html) ->
  usable_link BeautifulSoup html code = Returned None ->
  let search_url := base_url ++ "/loja/busca/?searchTerm=" ++ code in
  let run :=
    fetch_product_page BeautifulSoup net base_url code "efacil" retries init_state in
  fst run = Returned (code, search_url, Erro) /\
  requests (snd run) = S k /\
  io_events (events (snd run))
  = (List.concat (repeat [EvGet search_url TIMEOUT; EvSleep 1] k)
     ++ [EvGet search_url TIMEOUT])%list.
Proof.
  intros Hk Hpre Hnet Hlink search_url run.
  assert (Hrun : exists s1 logs,
             requests s1 = k /\
             io_events (events s1)
             = List.concat (repeat [EvGet search_url TIMEOUT; EvSleep 1] k) /\
             forallb is_log logs = true /\
             run = (Returned (code, search_url, Erro),
                    mkState (S (requests s1))
                      (events s1 ++ EvGet search_url TIMEOUT :: logs)%list)).
  { subst run. unfold fetch_product_page, search_url_of.
    rewrite String.eqb_refl. fold search_url.
    rewrite (range_split retries k Hk), for_attempts_app.
    match goal with
    | |- context [for_attempts ?b (seq 0 k) ?a init_state] =>
        destruct (for_attempts_retried BeautifulSoup net base_url code
                    search_url a (seq 0 k) init_state)
          as (s1 & Hs1 & Hreq & Hev)
    end.
    { intros j Hj. rewrite length_seq in Hj.
      cbn [requests init_state Nat.add]. apply Hpre. exact Hj. }
    rewrite Hs1. rewrite length_seq in Hreq, Hev.
    change (requests init_state + k) with k in Hreq.
    change (io_events (events init_state) ++ ?x)%list with x in Hev.
    assert (Hnet1 : net (requests s1) = GetResponse 200 (Text html))
      by (rewrite Hreq; exact Hnet).
    destruct (loop_body_nolink BeautifulSoup net base_url code search_url k s1
                html Hnet1 Hlink) as (logs & Hlogs & Hbody).
    exists s1, logs. repeat (split; [assumption|]).
    cbn [for_attempts]. unfold bind at 1. rewrite Hbody. reflexivity. }
  destruct Hrun as (s1 & logs & Hreq & Hev & Hlogs & ->).
  cbn [fst snd requests events].
  split; [reflexivity|]. split; [now rewrite Hreq|].
  change (EvGet search_url TIMEOUT :: logs)%list
    with ([EvGet search_url TIMEOUT] ++ logs)%list.
  rewrite !io_events_app, (io_events_logs logs Hlogs), Hev, app_nil_r.
  reflexivity.
Qed.

Lemma missing_link_ends_search_witness :
  (0 < Z.to_nat 3)%nat /\
  net_nolink 0 = GetResponse 200 (Text plain_page) /\
  usable_link toy_soup plain_page "12345" = Returned None /\
  requests (snd
    (fetch_product_page toy_soup net_nolink efacil_url "12345" "efacil" 3
       init_state)) = 1.
Proof.
  split; [vm_compute; lia|]. split; [reflexivity|]. split; [reflexivity|].
  apply (missing_link_ends_search toy_soup net_nolink efacil_url "12345" 3 0
           plain_page).
  - vm_compute. lia.
  - intros j Hj. lia.
  - reflexivity.
  - reflexivity.
Defined.

(** C6, as stated, fails: a 200 whose body holds no link element at all
    but is markup the parser rejects does not end the search.  The
    exception of the parser is raised inside the [try] (line 54), caught
    by line 69, and the attempt is followed by a sleep and tried again:
    three search requests and three sleeps where the claim has one
    request. *)
Lemma rejected_markup_is_retried :
  let search_url := "https://www.efacil.com.br/loja/busca/?searchTerm=12345" in
  let run :=
    fetch_product_page strict_soup net_rejected efacil_url "12345" "efacil"
      RETRY_COUNT init_state in
  net_rejected 0 = GetResponse 200 (Text rejected_page) /\
  toy_find rejected_page "btn_skuP12345" = None /\
  fst run = Returned ("12345", search_url, Erro) /\
  io_events (events (snd run))
  = [EvGet search_url 30; EvSleep 1; EvGet search_url 30; EvSleep 1;
     EvGet search_url 30; EvSleep 1] /\
  requests (snd run) <> 1.
Proof.
  cbv zeta. repeat split; try (vm_compute; reflexivity).
  vm_compute. discriminate.
Qed.

(** ** The check stage *)

(** [String.prefix], said with concatenation. *)
Lemma prefix_spec (n : string) :
  forall h, String.prefix n h = true <-> exists b, h = n ++ b.
Proof.
  induction n as [|a n IH]; intros h.
  - split; [intros _; exists h; reflexivity | intros _; now destruct h].
  - destruct h as [|c h].
    + split; [discriminate | intros (b & E); discriminate E].
    + cbn [String.prefix String.append].
      destruct (ascii_dec a c) as [-> | Hne].
      * rewrite IH. split.
        -- intros (b & ->). exists b. reflexivity.
        -- intros (b & E). injection E as ->. exists b. reflexivity.
      * split; [discriminate | intros (b & E)]. injection E as E _. congruence.
Qed.

Lemma str_in_unfold (n h : string) :
  str_in n h
  = if String.prefix n h then true
    else match h with
         | EmptyString => false
         | String _ h' => str_in n h'
         end.
Proof. destruct h; reflexivity. Qed.

(** The code's test [needle in hay] holds exactly when the needle is a
    substring of the page. *)
Lemma str_in_spec (n : string) :
  forall h, str_in n h = true <-> substring_of n h.
Proof.
  unfold substring_of. induction h as [|c h IH]; rewrite str_in_unfold.
  - destruct (String.prefix n EmptyString) eqn:E.
    + split; [intros _ | reflexivity].
      apply prefix_spec in E. destruct E as (b & E).
      exists EmptyString, b. exact E.
    + split; [discriminate | intros (a & b & Eq)].
      destruct a as [|x a]; [|discriminate Eq].
      assert (Hp : String.prefix n EmptyString = true)
        by (apply prefix_spec; exists b; exact Eq).
      congruence.
  - destruct (String.prefix n (String c h)) eqn:E.
    + split; [intros _ | reflexivity].
      apply prefix_spec in E. destruct E as (b & E).
      exists EmptyString, b. exact E.
    + rewrite IH. split.
      * intros (a & b & ->). exists (String c a), b. reflexivity.
      * intros (a & b & Eq). destruct a as [|x a].
        -- assert (Hp : String.prefix n (String c h) = true)
             by (apply prefix_spec; exists b; exact Eq).
           congruence.
        -- cbn [String.append] in Eq. injection Eq as _ ->.
           exists a, b. reflexivity.
Qed.

(** The three verdicts of the check stage, by the answer received. *)
Lemma check_spec_sim (x : get_result) :
  check_spec x = Sim <->
  exists html, x = GetResponse 200 (Text html) /\
               substring_of "lp-container" html.
Proof.
  unfold check_spec. destruct x as [e | st tx].
  - split; [discriminate | intros (h & E & _); discriminate E].
  - destruct (Z.eqb_spec st 200) as [-> | Hne].
    + destruct tx as [html | e].
      * destruct (str_in "lp-container" html) eqn:E.
        -- split; [intros _ | reflexivity].
           exists html. split; [reflexivity | now apply str_in_spec].
        -- split; [discriminate | intros (h & Eq & Hs)].
           injection Eq as <-. apply str_in_spec in Hs. congruence.
      * split; [discriminate | intros (h & E & _); discriminate E].
    + split; [discriminate | intros (h & E & _)]. injection E as E _.
      contradiction.
Qed.

Lemma check_spec_nao (x : get_result) :
  check_spec x = Nao <->
  exists html, x = GetResponse 200 (Text html) /\
               ~ substring_of "lp-container" html.
Proof.
  unfold check_spec. destruct x as [e | st tx].
  - split; [discriminate | intros (h & E & _); discriminate E].
  - destruct (Z.eqb_spec st 200) as [-> | Hne].
    + destruct tx as [html | e].
      * destruct (str_in "lp-container" html) eqn:E.
        -- split; [discriminate | intros (h & Eq & Hs)].
           injection Eq as <-. exfalso. apply Hs. now apply str_in_spec.
        -- split; [intros _ | reflexivity].
           exists html. split; [reflexivity|].
           intros Hs. apply str_in_spec in Hs. congruence.
      * split; [discriminate | intros (h & E & _); discriminate E].
    + split; [discriminate | intros (h & E & _)]. injection E as E _.
      contradiction.
Qed.

Lemma check_spec_erro (x : get_result) :
  check_spec x = Erro <-> forall html, x <> GetResponse 200 (Text html).
Proof.
  unfold check_spec. destruct x as [e | st tx].
  - split; [intros _ h; discriminate | reflexivity].
  - destruct (Z.eqb_spec st 200) as [-> | Hne].
    + destruct tx as [html | e].
      * split.
        -- destruct (str_in "lp-container" html); discriminate.
        -- intros H. exfalso. now apply (H html).
      * split; [intros _ h; discriminate | reflexivity].
    + split; [intros _ h E | reflexivity]. injection E as E _. contradiction.
Qed.

(** C5.  The check stage issues exactly one GET, of the product URL with
    the timeout of 30 seconds, and nothing else but log lines: no second
    request, no sleep.  It always returns, and the record is
    (code, product URL, m), where m is Sim exactly when the answer is a
    200 whose text has the marker "lp-container" as a substring, Não
    exactly when it is a 200 whose text does not, and Erro exactly when
    it is anything else (another status, a timeout, any other exception
    of the request or of the reading of the text). *)
Theorem check_stage_single_attempt net product_url code s :
  let run := check_product_content net product_url code s in
  let answer := net (requests s) in
  fst run = Returned (code, product_url, check_spec answer) /\
  requests (snd run) = S (requests s) /\
  io_events (events (snd run))
  = (io_events (events s) ++ [EvGet product_url TIMEOUT])%list /\
  TIMEOUT = 30%Z /\
  (check_spec answer = Sim <->
   exists html, answer = GetResponse 200 (Text html) /\
                substring_of "lp-container" html) /\
  (check_spec answer = Nao <->
   exists html, answer = GetResponse 200 (Text html) /\
                ~ substring_of "lp-container" html) /\
  (check_spec answer = Erro <->
   forall html, answer <> GetResponse 200 (Text html)).
Proof.
  cbv zeta.
  destruct (check_product_content_run net product_url code s)
    as (logs & Hlogs & ->).
  cbn [fst snd requests events].
  split; [reflexivity|]. split; [reflexivity|].
  split.
  { change (EvGet product_url TIMEOUT :: logs)%list
      with ([EvGet product_url TIMEOUT] ++ logs)%list.
    now rewrite !io_events_app, (io_events_logs logs Hlogs), app_nil_r. }
  split; [reflexivity|].
  split; [apply check_spec_sim|]. split; [apply check_spec_nao|].
  apply check_spec_erro.
Qed.

(** ** Options without a search URL *)

(** C2, at the input where the code departs from it.  The key "martins"
    is in the table, so its identifiers are dispatched, but their
    pipeline does not return a record: it raises. *)
Theorem martins_12345_escapes :
  truthy (dict_get base_urls "martins" EmptyString) = true /\
  fetch_product_page toy_soup net500 (dict_get base_urls "martins" EmptyString)
    "12345" "martins" RETRY_COUNT init_state
  = (Raised (UnboundLocalError "search_url"), init_state).
Proof. split; vm_compute; reflexivity. Qed.

(** C9.  The key "martins" resolves to a base URL, but no search URL is
    assigned for it.  The first attempt raises at the read of [search_url]
    before any request; the handler that catches it raises the same kind
    of exception while formatting its message; the exception leaves
    [fetch_product_page] with nothing requested and nothing logged, for
    every identifier, and a run over a non-empty list raises it instead
    of returning records. *)
Theorem martins_pipeline_raises BeautifulSoup net1 net sched base_url code codes
    retries attempt s :
  truthy (dict_get base_urls "martins" EmptyString) = true /\
  search_url_of base_url code "martins" = None /\
  search_attempt BeautifulSoup net1 base_url code "martins" None s
  = (Raised (UnboundLocalError "search_url"), s) /\
  search_handler code None attempt (UnboundLocalError "search_url") s
  = (Raised (UnboundLocalError "search_url"), s) /\
  fetch_product_page BeautifulSoup net1 base_url code "martins" retries s
  = (Raised (UnboundLocalError "search_url"), s) /\
  fst (process_skus BeautifulSoup net sched "martins" (code :: codes))
  = Raised (UnboundLocalError "search_url").
Proof.
  split; [reflexivity|]. split; [reflexivity|].
  split; [reflexivity|]. split; [reflexivity|].
  split; [now apply fetch_unbound_search_url|].
  unfold process_skus.
  change (negb (truthy (dict_get base_urls "martins" EmptyString))) with false.
  cbv iota. unfold enumerate.
  destruct (process_loop_all_raise BeautifulSoup net sched
              (dict_get base_urls "martins" EmptyString) "martins"
              (List.length (code :: codes)) (UnboundLocalError "search_url"))
    with (l := code :: codes) (s := 0) (tasks := @nil task)
         (results := @nil record) (log := @nil run_event)
    as (i & d & ->); try reflexivity; try discriminate.
Qed.

(** ** Keys of the table *)

Lemma known_key_truthy opt :
  In opt (map fst base_urls) ->
  truthy (dict_get base_urls opt EmptyString) = true.
Proof.
  cbn. intros [<- | [<- | []]]; reflexivity.
Qed.

Lemma unknown_key_default (d : list (string * string)) opt default :
  ~ In opt (map fst d) -> dict_get d opt default = default.
Proof.
  induction d as [|[k v] d IH]; intros Hnot; [reflexivity|].
  cbn [dict_get]. destruct (String.eqb_spec k opt) as [-> | Hne].
  - exfalso. apply Hnot. now left.
  - apply IH. intros Hin. apply Hnot. now right.
Qed.

(** C4, as amended.  For a key that is not in the table, whatever the
    identifiers, the run returns at once with an empty list of records:
    no group is launched, nothing completes, the callback is never called
    and no record with Erro is made.  It returns normally: nothing is
    raised, and the outcome is the one of a run with a key of the table
    over an empty list of identifiers. *)
Theorem unknown_key_returns_empty BeautifulSoup net sched opt codes :
  ~ In opt (map fst base_urls) ->
  process_skus BeautifulSoup net sched opt codes = (Returned [], []) /\
  process_skus BeautifulSoup net sched opt codes
  = process_skus BeautifulSoup net sched "efacil" [].
Proof.
  intros Hnot. unfold process_skus at 1 2.
  rewrite (unknown_key_default base_urls opt EmptyString Hnot).
  split; reflexivity.
Qed.

Lemma unknown_key_returns_empty_witness :
  ~ In "amazon" (map fst base_urls) /\
  process_skus toy_soup (fun _ => netA) (fun _ _ => 0) "amazon"
    ["12345"; "67890"] = (Returned [], []).
Proof.
  assert (H : ~ In "amazon" (map fst base_urls)).
  { cbn. intros [H | [H | []]]; discriminate H. }
  split; [exact H|].
  apply (unknown_key_returns_empty toy_soup (fun _ => netA) (fun _ _ => 0)
           "amazon" ["12345"; "67890"] H).
Defined.

(** C4, as stated, fails: the run over an unknown key signals nothing.
    It returns like any other run, and what it returns is what a run
    with a key of the table returns for an empty list. *)
Lemma unknown_key_is_silent :
  process_skus toy_soup (fun _ => netA) (fun _ _ => 0) "amazon" ["12345"]
  = (Returned [], []) /\
  process_skus toy_soup (fun _ => netA) (fun _ _ => 0) "amazon" ["12345"]
  = process_skus toy_soup (fun _ => netA) (fun _ _ => 0) "efacil" [].
Proof. split; vm_compute; reflexivity. Qed.

(** ** The scheduler *)

Lemma completions_group sched g rest :
  completions (group_log sched g ++ rest)
  = (map fst (group_order sched g) ++ completions rest)%list.
Proof.
  unfold group_log. cbn [app completions].
  induction (group_order sched g) as [|t order IH]; [reflexivity|].
  cbn. f_equal. exact IH.
Qed.

Lemma completions_groups sched groups :
  completions (flat_map (group_log sched) groups)
  = map fst (flat_map (group_order sched) groups).
Proof.
  induction groups as [|g groups IH]; [reflexivity|].
  cbn [flat_map]. now rewrite completions_group, map_app, IH.
Qed.

Lemma completion_values_fst sched groups :
  map fst (flat_map
             (fun g => map (fun t : task => (fst t, group_end g))
                         (group_order sched g)) groups)
  = map fst (flat_map (group_order sched) groups).
Proof.
  induction groups as [|g groups IH]; [reflexivity|].
  cbn [flat_map]. rewrite !map_app, IH. f_equal.
  rewrite map_map. reflexivity.
Qed.

Lemma completion_values_snd sched groups :
  map snd (flat_map
             (fun g => map (fun t : task => (fst t, group_end g))
                         (group_order sched g)) groups)
  = flat_map (fun g => repeat (group_end g) (List.length g)) groups.
Proof.
  induction groups as [|g groups IH]; [reflexivity|].
  cbn [flat_map]. rewrite map_app, IH. f_equal.
  unfold group_order.
  rewrite <- (as_completed_length (sched (last_index g)) g).
  induction (as_completed (sched (last_index g)) g) as [|t order IHo];
    [reflexivity|].
  cbn. now rewrite IHo.
Qed.

(** From two identifiers on, the first value passed is at least two. *)
Lemma values_from_not_counts codes :
  (2 <= List.length codes)%nat ->
  values_from (List.length codes) 0 codes <> seq 1 (List.length codes).
Proof.
  destruct codes as [|x [|y l]]; cbn [List.length]; try lia.
  intros _. rewrite values_from_cons.
  assert (Hm : (2 <= Nat.min BATCH_SIZE (S (List.length (y :: l))))%nat)
    by (unfold BATCH_SIZE; cbn [List.length]; lia).
  destruct (Nat.min BATCH_SIZE (S (List.length (y :: l)))) as [|[|m]];
    try lia.
  cbn [repeat app seq Nat.add]. intros E. injection E as E _. lia.
Qed.

Lemma concat_groups_of codes : List.concat (groups_of codes) = enumerate codes.
Proof. apply concat_chunks, BATCH_SIZE_pos. Qed.

(** C3.  A run that comes back returns, for a key of the table, exactly
    one record per input identifier: as many records as identifiers, and
    the identifiers of the records are those of the input, duplicates
    included, up to order; each record carries one of the three messages.
    For a key that is not in the table it returns no record. *)
Theorem one_record_per_identifier BeautifulSoup net sched opt codes rs log :
  process_skus BeautifulSoup net sched opt codes = (Returned rs, log) ->
  (In opt (map fst base_urls) ->
     List.length rs = List.length codes /\
     Permutation (map rec_code rs) codes /\
     Forall (fun r => terminal (rec_status r)) rs) /\
  (~ In opt (map fst base_urls) -> rs = []).
Proof.
  intros Hrun. split.
  - intros Hkey.
    destruct (process_skus_returned _ _ _ _ _ _ _ (known_key_truthy _ Hkey) Hrun)
      as [Hrs _].
    apply returned_codes in Hrs. destruct Hrs as [Hcodes Hterm].
    assert (HP : Permutation (map rec_code rs) codes).
    { rewrite Hcodes.
      rewrite <- (map_snd_enumerate_from codes 0) at 2.
      apply Permutation_map. fold (enumerate codes).
      rewrite <- concat_groups_of. apply group_orders_perm. }
    split; [|split; assumption].
    apply Permutation_length in HP. now rewrite length_map in HP.
  - intros Hnot.
    destruct (unknown_key_returns_empty BeautifulSoup net sched opt codes Hnot)
      as [E _].
    rewrite E in Hrun. now injection Hrun as <- _.
Qed.

Lemma demo_run :
  process_skus toy_soup (fun _ => netA) (fun _ _ => 1) "efacil" demo_codes
  = (Returned demo_records, demo_log).
Proof. vm_compute. reflexivity. Defined.

Lemma efacil_known : In "efacil" (map fst base_urls).
Proof. cbn. right. left. reflexivity. Defined.

Lemma one_record_per_identifier_witness :
  process_skus toy_soup (fun _ => netA) (fun _ _ => 1) "efacil" demo_codes
  = (Returned demo_records, demo_log) /\
  List.length demo_records = List.length demo_codes.
Proof.
  split; [exact demo_run|].
  destruct (one_record_per_identifier toy_soup (fun _ => netA) (fun _ _ => 1)
              "efacil" demo_codes demo_records demo_log demo_run) as [Hk _].
  destruct (Hk efacil_known) as [Hlen _]. exact Hlen.
Defined.

(** C7, as amended.  In a run that comes back, for a key of the table,
    every completion is followed at once by a call of the progress
    callback, whose argument is one plus the loop index of the last
    identifier of the group being drained, that is the number of
    identifiers dispatched so far.  All completions of a group get this
    same value, whichever identifier completed; with two identifiers or
    more, the values passed are not the running count 1, 2, ... of
    completions. *)
Theorem callback_gets_dispatch_count BeautifulSoup net sched opt codes rs log :
  In opt (map fst base_urls) ->
  process_skus BeautifulSoup net sched opt codes = (Returned rs, log) ->
  completion_values log
  = flat_map (fun g => map (fun t => (fst t, group_end g)) (group_order sched g))
      (groups_of codes) /\
  map fst (completion_values log) = completions log /\
  List.length (completions log) = List.length codes /\
  ((2 <= List.length codes)%nat ->
     map snd (completion_values log) <> seq 1 (List.length codes)).
Proof.
  intros Hkey Hrun.
  destruct (process_skus_returned _ _ _ _ _ _ _ (known_key_truthy _ Hkey) Hrun)
    as [_ ->].
  rewrite completion_values_groups, completions_groups, completion_values_fst.
  split; [reflexivity|]. split; [reflexivity|]. split.
  - rewrite length_map, (Permutation_length (group_orders_perm sched _)).
    rewrite concat_groups_of. unfold enumerate. apply length_enumerate_from.
  - intros Hlen. rewrite completion_values_snd.
    unfold groups_of, chunks, enumerate. rewrite length_enumerate_from.
    fold (values_from (List.length codes) 0 codes).
    now apply values_from_not_counts.
Qed.

Lemma callback_gets_dispatch_count_witness :
  In "efacil" (map fst base_urls) /\
  process_skus toy_soup (fun _ => netA) (fun _ _ => 1) "efacil" demo_codes
  = (Returned demo_records, demo_log) /\
  map fst (completion_values demo_log) = completions demo_log.
Proof.
  split; [exact efacil_known|]. split; [exact demo_run|].
  destruct (callback_gets_dispatch_count toy_soup (fun _ => netA)
              (fun _ _ => 1) "efacil" demo_codes demo_records demo_log
              efacil_known demo_run) as (_ & H & _).
  exact H.
Defined.

(** C7, as stated, fails: with two identifiers, the callback gets 2 after
    the completion of the first one, which is neither its position
    (counted from one or from zero) nor the number of completions so
    far. *)
Lemma callback_not_own_position :
  let run :=
    process_skus toy_soup (fun _ => netA) (fun _ _ => 0) "efacil"
      ["111"; "222"] in
  snd run
  = [Launch [0; 1]; Completed 0; Progress 2; Completed 1; Progress 2] /\
  completion_values (snd run) = [(0, 2); (1, 2)] /\
  ~ Forall (fun iv => snd iv = fst iv + 1) (completion_values (snd run)) /\
  ~ Forall (fun iv => snd iv = fst iv) (completion_values (snd run)).
Proof.
  cbv zeta. split; [vm_compute; reflexivity|]. split; [vm_compute; reflexivity|].
  split; intros H; vm_compute in H; inversion H as [|x l Hx _]; cbn in Hx;
    discriminate Hx.
Qed.

(** C10.  In a run that comes back, for a key of the table, the values
    passed to the callback are, group after group, as many copies as the
    group has identifiers of one value: one plus the position in the
    input list of the last identifier of the group.  The value of a
    group is the value of the group before it plus its own size; the
    values never decrease; and for a non-empty input the last one is the
    length of the input. *)
Theorem progress_values_by_group BeautifulSoup net sched opt codes rs log :
  In opt (map fst base_urls) ->
  process_skus BeautifulSoup net sched opt codes = (Returned rs, log) ->
  progress_values log
  = flat_map (fun g => repeat (group_end g) (List.length g)) (groups_of codes) /\
  List.concat (groups_of codes) = enumerate codes /\
  map group_end (groups_of codes)
  = running_total 0 (map (@List.length _) (groups_of codes)) /\
  StronglySorted le (progress_values log) /\
  (codes <> [] -> last (progress_values log) 0 = List.length codes).
Proof.
  intros Hkey Hrun.
  destruct (process_skus_returned _ _ _ _ _ _ _ (known_key_truthy _ Hkey) Hrun)
    as [_ ->].
  rewrite progress_values_groups.
  split; [reflexivity|]. split; [apply concat_groups_of|].
  split; [apply group_ends_running|].
  unfold groups_of, chunks, enumerate.
  rewrite length_enumerate_from.
  fold (values_from (List.length codes) 0 codes).
  split; [apply values_from_sorted|].
  intros _. now rewrite values_from_last.
Qed.

Lemma progress_values_by_group_witness :
  In "efacil" (map fst base_urls) /\
  process_skus toy_soup (fun _ => netA) (fun _ _ => 1) "efacil" demo_codes
  = (Returned demo_records, demo_log) /\
  demo_codes <> [] /\
  last (progress_values demo_log) 0 = List.length demo_codes.
Proof.
  split; [exact efacil_known|]. split; [exact demo_run|].
  assert (Hne : demo_codes <> []) by discriminate.
  split; [exact Hne|].
  destruct (progress_values_by_group toy_soup (fun _ => netA) (fun _ _ => 1)
              "efacil" demo_codes demo_records demo_log efacil_known demo_run)
    as (_ & _ & _ & _ & H).
  exact (H Hne).
Defined.

(** C8.  In a run that comes back, for a key of the table: the groups
    handed to [as_completed] are the contiguous chunks of the enumerated
    input, each of at least one and at most [BATCH_SIZE] = 50 tasks; a
    group is launched only when no pipeline is in flight, so every
    pipeline of a group has completed before the next group starts, and
    at no point are more than [BATCH_SIZE] pipelines in flight; tasks are
    awaited, and their records appended, group after group, within a
    group in the order of completion. *)
Theorem groups_run_in_sequence BeautifulSoup net sched opt codes rs log :
  In opt (map fst base_urls) ->
  process_skus BeautifulSoup net sched opt codes = (Returned rs, log) ->
  launches log = map (map fst) (groups_of codes) /\
  List.concat (groups_of codes) = enumerate codes /\
  Forall (fun g => (1 <= List.length g <= BATCH_SIZE)%nat) (groups_of codes) /\
  (forall p q, log = (p ++ q)%list ->
     (0 <= in_flight p <= Z.of_nat BATCH_SIZE)%Z) /\
  (forall p g q, log = (p ++ Launch g :: q)%list -> in_flight p = 0%Z) /\
  completions log = map fst (flat_map (group_order sched) (groups_of codes)) /\
  map Returned rs
  = map (run_task BeautifulSoup net (dict_get base_urls opt EmptyString) opt)
      (flat_map (group_order sched) (groups_of codes)) /\
  BATCH_SIZE = 50.
Proof.
  intros Hkey Hrun.
  destruct (process_skus_returned _ _ _ _ _ _ _ (known_key_truthy _ Hkey) Hrun)
    as [Hrs ->].
  pose proof (chunks_bounds BATCH_SIZE (enumerate codes) BATCH_SIZE_pos)
    as Hbounds.
  fold (groups_of codes) in Hbounds.
  assert (Hd : disciplined BATCH_SIZE 0
                 (flat_map (group_log sched) (groups_of codes))).
  { apply disciplined_groups. eapply Forall_impl; [|exact Hbounds].
    cbn beta. intros g Hg. lia. }
  split; [apply launches_groups|]. split; [apply concat_groups_of|].
  split; [exact Hbounds|].
  split.
  { intros p q Hsplit.
    destruct (disciplined_prefix _ _ 0 p q Hd (Nat.le_0_l _) Hsplit) as [H _].
    cbn in H. exact H. }
  split.
  { intros p g q Hsplit.
    destruct (disciplined_prefix _ _ 0 p _ Hd (Nat.le_0_l _) Hsplit) as [_ H].
    exact (H g q eq_refl). }
  split; [apply completions_groups|]. split; [exact Hrs | reflexivity].
Qed.

Lemma groups_run_in_sequence_witness :
  In "efacil" (map fst base_urls) /\
  process_skus toy_soup (fun _ => netA) (fun _ _ => 1) "efacil" demo_codes
  = (Returned demo_records, demo_log) /\
  launches demo_log = map (map fst) (groups_of demo_codes).
Proof.
  split; [exact efacil_known|]. split; [exact demo_run|].
  destruct (groups_run_in_sequence toy_soup (fun _ => netA) (fun _ _ => 1)
              "efacil" demo_codes demo_records demo_log efacil_known demo_run)
    as (H & _).
  exact H.
Defined.

(** * Further properties of the pipeline *)

(** ** The search stage *)

(** After [k] answers of the retried kind the pipeline is at its [k]-th attempt,
    having done [k] rounds of one GET and one sleep. *)
Lemma fetch_after_transients BeautifulSoup net base_url code retries k :
  (k < Z.to_nat retries)%nat ->
  (forall j, (j < k)%nat -> retried BeautifulSoup (net j) = true) ->
  let u := base_url ++ "/loja/busca/?searchTerm=" ++ code in
  exists s1,
    requests s1 = k /\
    io_events (events s1)
    = List.concat (repeat [EvGet u TIMEOUT; EvSleep 1] k) /\
    fetch_product_page BeautifulSoup net base_url code "efacil" retries init_state
    = for_attempts (loop_body BeautifulSoup net base_url code "efacil" (Some u))
        (k :: seq (S k) (Z.to_nat retries - S k))
        (x <- load "search_url" (Some u) ;; ret (code, x, Erro)) s1.
Proof.
  intros Hk Hpre u.
  unfold fetch_product_page, search_url_of. rewrite String.eqb_refl. fold u.
  rewrite (range_split retries k Hk), for_attempts_app.
  match goal with
  | |- context [for_attempts ?b (seq 0 k) ?a init_state] =>
      destruct (for_attempts_retried BeautifulSoup net base_url code u a
                  (seq 0 k) init_state) as (s1 & Hs1 & Hreq & Hev)
  end.
  { intros j Hj. rewrite length_seq in Hj.
    cbn [requests init_state Nat.add]. apply Hpre. exact Hj. }
  rewrite length_seq in Hreq, Hev.
  change (requests init_state + k) with k in Hreq.
  change (io_events (events init_state) ++ ?x)%list with x in Hev.
  exists s1. split; [exact Hreq|]. split; [exact Hev|]. exact Hs1.
Qed.

(** When an attempt finds the link, the pipeline hands over to the check
    stage and ends with its verdict, whatever it is: the record carries
    the product URL [base_url + href], one more GET is issued, for the
    product page, and the search is not tried again even when the check
    stage answers Erro.  Here the attempt is the [k]-th, after [k]
    transient answers. *)
Theorem link_hands_over_to_check BeautifulSoup net base_url code retries k html href :
  (k < Z.to_nat retries)%nat ->
  (forall j, (j < k)%nat -> transient (net j) = true) ->
  net k = GetResponse 200 (Text html) ->
  usable_link BeautifulSoup html code = Returned (Some href) ->
  let search_url := base_url ++ "/loja/busca/?searchTerm=" ++ code in
  let run :=
    fetch_product_page BeautifulSoup net base_url code "efacil" retries init_state in
  fst run = Returned (code, base_url ++ href, check_spec (net (S k))) /\
  requests (snd run) = S (S k) /\
  io_events (events (snd run))
  = (List.concat (repeat [EvGet search_url TIMEOUT; EvSleep 1] k)
     ++ [EvGet search_url TIMEOUT; EvGet (base_url ++ href) TIMEOUT])%list.
Proof.
  intros Hk Hpre Hnet Hlink search_url run.
  destruct (fetch_after_transients BeautifulSoup net base_url code retries k Hk)
    as (s1 & Hreq & Hev & Hrun).
  { intros j Hj. apply transient_retried, Hpre. exact Hj. }
  fold search_url in Hev, Hrun.
  assert (Hnet1 : net (requests s1) = GetResponse 200 (Text html))
    by (rewrite Hreq; exact Hnet).
  destruct (loop_body_link BeautifulSoup net base_url code search_url k s1 html
              href Hnet1 Hlink) as (logs & Hlogs & Hbody).
  assert (E : run = (Returned (code, base_url ++ href, check_spec (net (S k))),
                     mkState (S (S k))
                       (events s1 ++ EvGet search_url TIMEOUT
                          :: EvGet (base_url ++ href) TIMEOUT :: logs)%list)).
  { subst run. rewrite Hrun. cbn [for_attempts]. unfold bind at 1.
    rewrite Hbody, Hreq. reflexivity. }
  rewrite E. cbn [fst snd requests events].
  split; [reflexivity|]. split; [reflexivity|].
  change (EvGet search_url TIMEOUT :: EvGet (base_url ++ href) TIMEOUT :: logs)%list
    with ([EvGet search_url TIMEOUT; EvGet (base_url ++ href) TIMEOUT] ++ logs)%list.
  rewrite !io_events_app, (io_events_logs logs Hlogs), Hev, app_nil_r.
  reflexivity.
Qed.

Lemma link_hands_over_to_check_witness :
  (0 < Z.to_nat 3)%nat /\
  netB 0 = GetResponse 200 (Text search_page) /\
  usable_link toy_soup search_page "12345" = Returned (Some "/p/12345") /\
  fst (fetch_product_page toy_soup netB efacil_url "12345" "efacil" 3 init_state)
  = Returned ("12345", efacil_url ++ "/p/12345", check_spec (netB 1)).
Proof.
  split; [vm_compute; lia|]. split; [reflexivity|]. split; [reflexivity|].
  apply (link_hands_over_to_check toy_soup netB efacil_url "12345" 3 0
           search_page "/p/12345").
  - vm_compute. lia.
  - intros j Hj. lia.
  - reflexivity.
  - reflexivity.
Defined.

(** The first answer that is not of the retried kind, if there is one
    among the first [n]. *)
Lemma first_not_retried BeautifulSoup (net : nat -> get_result) (n : nat) :
  (forall j, (j < n)%nat -> retried BeautifulSoup (net j) = true) \/
  exists k, (k < n)%nat /\
            (forall j, (j < k)%nat -> retried BeautifulSoup (net j) = true) /\
            retried BeautifulSoup (net k) = false.
Proof.
  induction n as [|n [Hall | (k & Hk & Hpre & Hnot)]].
  - left. intros j Hj. lia.
  - destruct (retried BeautifulSoup (net n)) eqn:E.
    + left. intros j Hj. destruct (Nat.eq_dec j n) as [-> | Hne]; [exact E|].
      apply Hall. lia.
    + right. exists n. split; [lia|]. split; [|exact E].
      intros j Hj. apply Hall. exact Hj.
  - right. exists k. split; [lia|]. split; assumption.
Qed.

(** The three ways in which a pipeline with option "efacil" ends. *)
Lemma fetch_efacil_cases BeautifulSoup net base_url code retries :
  let u := base_url ++ "/loja/busca/?searchTerm=" ++ code in
  let n := Z.to_nat retries in
  let run :=
    fetch_product_page BeautifulSoup net base_url code "efacil" retries init_state in
  let rounds k := List.concat (repeat [EvGet u TIMEOUT; EvSleep 1] k) in
  ((forall j, (j < n)%nat -> retried BeautifulSoup (net j) = true) /\
   fst run = Returned (code, u, Erro) /\
   requests (snd run) = n /\
   io_events (events (snd run)) = rounds n) \/
  (exists k html,
     (k < n)%nat /\ (forall j, (j < k)%nat -> retried BeautifulSoup (net j) = true) /\
     net k = GetResponse 200 (Text html) /\
     usable_link BeautifulSoup html code = Returned None /\
     fst run = Returned (code, u, Erro) /\
     requests (snd run) = S k /\
     io_events (events (snd run)) = (rounds k ++ [EvGet u TIMEOUT])%list) \/
  (exists k html href,
     (k < n)%nat /\ (forall j, (j < k)%nat -> retried BeautifulSoup (net j) = true) /\
     net k = GetResponse 200 (Text html) /\
     usable_link BeautifulSoup html code = Returned (Some href) /\
     fst run = Returned (code, base_url ++ href, check_spec (net (S k))) /\
     requests (snd run) = S (S k) /\
     io_events (events (snd run))
     = (rounds k ++ [EvGet u TIMEOUT; EvGet (base_url ++ href) TIMEOUT])%list).
Proof.
  intros u n run rounds.
  destruct (first_not_retried BeautifulSoup net n) as [Hall | (k & Hk & Hpre & Hnot)].
  - left. split; [exact Hall|].
    subst run. unfold fetch_product_page, search_url_of.
    rewrite String.eqb_refl. fold u.
    match goal with
    | |- context [for_attempts ?b ?a ?k init_state] =>
        destruct (for_attempts_retried BeautifulSoup net base_url code u k a
                    init_state) as (s1 & Hs1 & Hreq & Hev)
    end.
    { intros j Hj. unfold range in Hj. rewrite length_seq in Hj.
      cbn [requests init_state Nat.add]. apply Hall. exact Hj. }
    rewrite Hs1. unfold range in Hreq, Hev. rewrite length_seq in Hreq, Hev.
    cbn [fst snd]. split; [reflexivity|]. split; [exact Hreq | exact Hev].
  - right.
    destruct (answer_cases BeautifulSoup code (net k))
      as [Ht | (html & Hnet & [Hno | (href & Hyes)])].
    + rewrite Ht in Hnot. discriminate.
    + left. exists k, html. repeat (split; [assumption|]).
      destruct (fetch_after_transients BeautifulSoup net base_url code retries k
                  Hk Hpre) as (s1 & Hreq & Hev & Hrun).
      fold u in Hev, Hrun.
      assert (Hnet1 : net (requests s1) = GetResponse 200 (Text html))
        by (rewrite Hreq; exact Hnet).
      destruct (loop_body_nolink BeautifulSoup net base_url code u k s1 html
                  Hnet1 Hno) as (logs & Hlogs & Hbody).
      assert (E : run = (Returned (code, u, Erro),
                         mkState (S k)
                           (events s1 ++ EvGet u TIMEOUT :: logs)%list)).
      { subst run. rewrite Hrun. cbn [for_attempts]. unfold bind at 1.
        rewrite Hbody, Hreq. reflexivity. }
      rewrite E. cbn [fst snd requests events].
      split; [reflexivity|]. split; [reflexivity|].
      change (EvGet u TIMEOUT :: logs)%list with ([EvGet u TIMEOUT] ++ logs)%list.
      rewrite !io_events_app, (io_events_logs logs Hlogs), Hev, app_nil_r.
      reflexivity.
    + right. exists k, html, href. repeat (split; [assumption|]).
      destruct (fetch_after_transients BeautifulSoup net base_url code retries k
                  Hk Hpre) as (s1 & Hreq & Hev & Hrun).
      fold u in Hev, Hrun.
      assert (Hnet1 : net (requests s1) = GetResponse 200 (Text html))
        by (rewrite Hreq; exact Hnet).
      destruct (loop_body_link BeautifulSoup net base_url code u k s1 html href
                  Hnet1 Hyes) as (logs & Hlogs & Hbody).
      assert (E : run
                  = (Returned (code, base_url ++ href, check_spec (net (S k))),
                     mkState (S (S k))
                       (events s1 ++ EvGet u TIMEOUT
                          :: EvGet (base_url ++ href) TIMEOUT :: logs)%list)).
      { subst run. rewrite Hrun. cbn [for_attempts]. unfold bind at 1.
        rewrite Hbody, Hreq. reflexivity. }
      rewrite E. cbn [fst snd requests events].
      split; [reflexivity|]. split; [reflexivity|].
      change (EvGet u TIMEOUT :: EvGet (base_url ++ href) TIMEOUT :: logs)%list
        with ([EvGet u TIMEOUT; EvGet (base_url ++ href) TIMEOUT] ++ logs)%list.
      rewrite !io_events_app, (io_events_logs logs Hlogs), Hev, app_nil_r.
      reflexivity.
Qed.

Lemma gets_app l1 l2 : gets (l1 ++ l2) = (gets l1 ++ gets l2)%list.
Proof. apply filter_app. Qed.

Lemma sleeps_app l1 l2 : sleeps (l1 ++ l2) = (sleeps l1 ++ sleeps l2)%list.
Proof. apply filter_app. Qed.

Lemma event_ok_io_events (l : list event) :
  Forall event_ok (io_events l) -> Forall event_ok l.
Proof.
  unfold io_events. induction l as [|e l IH]; intros H; [constructor|].
  destruct e; cbn [filter is_log negb] in H.
  - inversion H; subst. constructor; auto.
  - inversion H; subst. constructor; auto.
  - constructor; [exact I | auto].
Qed.

Lemma event_ok_rounds u (k : nat) :
  Forall event_ok (List.concat (repeat [EvGet u TIMEOUT; EvSleep 1] k)).
Proof.
  induction k as [|k IH]; [constructor|].
  cbn [repeat List.concat app]. repeat constructor. exact IH.
Qed.

(** With option "efacil" the pipeline always returns a record of its
    identifier with one of the three messages, after at most
    [retries + 1] requests (the searches and at most one product page)
    and at most [retries] sleeps; every request it issues carries the
    timeout of 30 seconds and every sleep lasts one second. *)
Theorem efacil_pipeline_bounded BeautifulSoup net base_url code retries :
  exists r s',
    fetch_product_page BeautifulSoup net base_url code "efacil" retries init_state
    = (Returned r, s') /\
    rec_code r = code /\ terminal (rec_status r) /\
    List.length (gets (events s')) = requests s' /\
    (requests s' <= Z.to_nat retries + 1)%nat /\
    (List.length (sleeps (events s')) <= Z.to_nat retries)%nat /\
    Forall event_ok (events s').
Proof.
  pose proof (fetch_efacil_cases BeautifulSoup net base_url code retries) as H.
  cbv zeta in H.
  destruct (fetch_product_page BeautifulSoup net base_url code "efacil" retries
              init_state) as [o s'].
  cbn [fst snd] in H.
  destruct H as [(_ & -> & Hreq & Hev)
                | [(k & html & Hk & _ & _ & _ & -> & Hreq & Hev)
                  | (k & html & href & Hk & _ & _ & _ & -> & Hreq & Hev)]];
    do 2 eexists; (split; [reflexivity|]); (split; [reflexivity|]).
  - split; [right; right; reflexivity|].
    rewrite gets_io_events, sleeps_io_events, Hev, gets_rounds, sleeps_rounds.
    repeat split; try lia.
    apply event_ok_io_events. rewrite Hev. apply event_ok_rounds.
  - split; [right; right; reflexivity|].
    rewrite gets_io_events, sleeps_io_events, Hev, gets_app, sleeps_app.
    rewrite !length_app, gets_rounds, sleeps_rounds. cbn [gets sleeps filter
      is_get is_sleep List.length].
    repeat split; try lia.
    apply event_ok_io_events. rewrite Hev. apply Forall_app.
    split; [apply event_ok_rounds | repeat constructor].
  - split; [apply check_spec_terminal|].
    rewrite gets_io_events, sleeps_io_events, Hev, gets_app, sleeps_app.
    rewrite !length_app, gets_rounds, sleeps_rounds. cbn [gets sleeps filter
      is_get is_sleep List.length].
    repeat split; try lia.
    apply event_ok_io_events. rewrite Hev. apply Forall_app.
    split; [apply event_ok_rounds | repeat constructor].
Qed.

Lemma check_spec_not_erro (x : get_result) :
  check_spec x <> Erro ->
  exists page,
    x = GetResponse 200 (Text page) /\
    check_spec x = (if str_in "lp-container" page then Sim else Nao).
Proof.
  unfold check_spec. destruct x as [e | st tx]; [congruence|].
  destruct (Z.eqb_spec st 200) as [-> | Hne]; [|congruence].
  destruct tx as [page | e]; [|congruence].
  intros _. exists page. split; reflexivity.
Qed.

(** A message other than Erro is never made up: with option "efacil",
    when the record says Sim or Não, some search attempt got a 200 with
    a usable link, the record's URL is the base URL followed by that
    link, and the next answer, to the request for the product page, was
    a 200 whose text contains the marker exactly when the message is
    Sim. *)
Theorem verdict_comes_from_product_page BeautifulSoup net base_url code retries r s' :
  fetch_product_page BeautifulSoup net base_url code "efacil" retries init_state
  = (Returned r, s') ->
  rec_status r <> Erro ->
  exists k html href page,
    (k < Z.to_nat retries)%nat /\
    net k = GetResponse 200 (Text html) /\
    usable_link BeautifulSoup html code = Returned (Some href) /\
    rec_url r = base_url ++ href /\
    net (S k) = GetResponse 200 (Text page) /\
    rec_status r = (if str_in "lp-container" page then Sim else Nao).
Proof.
  intros Hrun Hst.
  pose proof (fetch_efacil_cases BeautifulSoup net base_url code retries) as H.
  cbv zeta in H. rewrite Hrun in H. cbn [fst snd] in H.
  destruct H as [(_ & E & _)
                | [(k & html & _ & _ & _ & _ & E & _)
                  | (k & html & href & Hk & _ & Hnet & Hlink & E & _)]];
    injection E as ->.
  - exfalso. apply Hst. reflexivity.
  - exfalso. apply Hst. reflexivity.
  - cbn [rec_status rec_url fst snd] in *.
    destruct (check_spec_not_erro _ Hst) as (page & Hpage & Hverdict).
    exists k, html, href, page. auto 10.
Qed.

Lemma verdict_comes_from_product_page_witness :
  fetch_product_page toy_soup netA efacil_url "12345" "efacil" 3 init_state
  = (Returned ("12345", "https://www.efacil.com.br/p/12345", Sim),
     mkState 2
       [EvGet "https://www.efacil.com.br/loja/busca/?searchTerm=12345" 30;
        EvGet "https://www.efacil.com.br/p/12345" 30]) /\
  Sim <> Erro /\
  exists k html href page,
    (k < Z.to_nat 3)%nat /\
    netA k = GetResponse 200 (Text html) /\
    usable_link toy_soup html "12345" = Returned (Some href) /\
    rec_url ("12345", "https://www.efacil.com.br/p/12345", Sim)
    = efacil_url ++ href /\
    netA (S k) = GetResponse 200 (Text page) /\
    rec_status ("12345", "https://www.efacil.com.br/p/12345", Sim)
    = (if str_in "lp-container" page then Sim else Nao).
Proof.
  assert (Hrun : fetch_product_page toy_soup netA efacil_url "12345" "efacil"
                   3 init_state
                 = (Returned ("12345", "https://www.efacil.com.br/p/12345", Sim),
                    mkState 2
                      [EvGet "https://www.efacil.com.br/loja/busca/?searchTerm=12345" 30;
                       EvGet "https://www.efacil.com.br/p/12345" 30]))
    by (vm_compute; reflexivity).
  assert (Hne : Sim <> Erro) by discriminate.
  split; [exact Hrun|]. split; [exact Hne|].
  exact (verdict_comes_from_product_page toy_soup netA efacil_url "12345" 3
           _ _ Hrun Hne).
Defined.

(** ** What is logged *)

(** An answer with a status other than 200: the attempt leaves no log
    line, only the request and the sleep. *)
Lemma loop_body_bad_status BeautifulSoup net base_url code u attempt s st tx :
  net (requests s) = GetResponse st tx -> st <> 200%Z ->
  loop_body BeautifulSoup net base_url code "efacil" (Some u) attempt s
  = (Returned None,
     mkState (S (requests s)) (events s ++ [EvGet u TIMEOUT; EvSleep 1])%list).
Proof.
  intros Hnet Hst.
  unfold loop_body, try_except, search_attempt, search_handler, session_get,
    response_text.
  rewrite String.eqb_refl. run_io. rewrite Hnet. run_io.
  destruct (Z.eqb_spec st 200) as [E | _]; [contradiction|].
  run_io. rewrite <- app_assoc. reflexivity.
Qed.

(** A failed HTTP status is not logged.  With option "efacil", when
    every answer to the search request is a response with a status other
    than 200, the pipeline ends in Erro after [retries] rounds of one GET
    and one sleep, and its trace holds no log line at all: nothing
    records the statuses received. *)
Theorem http_status_leaves_no_log BeautifulSoup net base_url code retries :
  (forall j, (j < Z.to_nat retries)%nat ->
     exists st tx, net j = GetResponse st tx /\ st <> 200%Z) ->
  let search_url := base_url ++ "/loja/busca/?searchTerm=" ++ code in
  let run :=
    fetch_product_page BeautifulSoup net base_url code "efacil" retries init_state in
  fst run = Returned (code, search_url, Erro) /\
  events (snd run)
  = List.concat (repeat [EvGet search_url TIMEOUT; EvSleep 1] (Z.to_nat retries)).
Proof.
  intros Hnet search_url run. subst run.
  unfold fetch_product_page, search_url_of. rewrite String.eqb_refl.
  fold search_url. unfold range.
  set (after := (x <- load "search_url" (Some search_url) ;;
                 ret (code, x, Erro))).
  assert (Hgen : forall len start s,
             requests s = start ->
             (forall j, (j < len)%nat ->
                exists st tx, net (start + j) = GetResponse st tx /\ st <> 200%Z) ->
             for_attempts
               (loop_body BeautifulSoup net base_url code "efacil" (Some search_url))
               (seq start len) after s
             = (Returned (code, search_url, Erro),
                mkState (start + len)
                  (events s
                   ++ List.concat
                        (repeat [EvGet search_url TIMEOUT; EvSleep 1] len))%list)).
  { induction len as [|len IH]; intros start s Hreq Hall.
    - cbn. rewrite Nat.add_0_r, app_nil_r, <- Hreq. now destruct s.
    - cbn [seq for_attempts]. unfold bind at 1.
      destruct (Hall 0) as (st & tx & Hn & Hst); [lia|].
      rewrite Nat.add_0_r, <- Hreq in Hn.
      rewrite (loop_body_bad_status _ _ _ _ _ _ _ _ _ Hn Hst).
      rewrite (IH (S start)).
      + cbn [events repeat List.concat]. rewrite <- !app_assoc.
        replace (S start + len) with (start + S len) by lia. reflexivity.
      + cbn [requests]. lia.
      + intros j Hj. destruct (Hall (S j)) as (st' & tx' & Hn' & Hst'); [lia|].
        exists st', tx'. split; [|exact Hst'].
        rewrite <- Hn'. f_equal. lia. }
  rewrite (Hgen (Z.to_nat retries) 0 init_state eq_refl Hnet).
  cbn [fst snd events init_state app]. split; reflexivity.
Qed.

Lemma http_status_leaves_no_log_witness :
  (forall j, (j < Z.to_nat 3)%nat ->
     exists st tx, net500 j = GetResponse st tx /\ st <> 200%Z) /\
  events (snd (fetch_product_page toy_soup net500 efacil_url "12345" "efacil"
                 3 init_state))
  = List.concat
      (repeat [EvGet (efacil_url ++ "/loja/busca/?searchTerm=" ++ "12345") TIMEOUT;
               EvSleep 1] (Z.to_nat 3)).
Proof.
  assert (H : forall j, (j < Z.to_nat 3)%nat ->
                exists st tx, net500 j = GetResponse st tx /\ st <> 200%Z).
  { intros j _. exists 500%Z, (Text EmptyString). split; [reflexivity|lia]. }
  split; [exact H|].
  apply (http_status_leaves_no_log toy_soup net500 efacil_url "12345" 3 H).
Defined.

(** The check stage logs one line exactly when an exception is raised,
    a warning for a timeout and an error otherwise, whether the request
    or the reading of the text raised it; a response whose text can be
    read leaves no log line, whatever its status. *)
Theorem check_stage_log_lines net product_url code s :
  let added :=
    skipn (List.length (events s))
      (events (snd (check_product_content net product_url code s))) in
  let raised :=
    match net (requests s) with
    | GetRaises e => Some e
    | GetResponse st (TextRaises e) => if (st =? 200)%Z then Some e else None
    | GetResponse _ (Text _) => None
    end in
  added
  = EvGet product_url TIMEOUT
    :: match raised with
       | None => []
       | Some TimeoutError =>
           [EvLog WARNING
              ("Timeout ao verificar a página do produto " ++ product_url ++ ".")]
       | Some e =>
           [EvLog ERROR
              ("Falha ao verificar a página do produto " ++ product_url
               ++ ": " ++ str_exn e)]
       end.
Proof.
  cbv zeta.
  assert (Hskip : forall (l l' : list event),
             skipn (List.length l) (l ++ l') = l').
  { intros l l'. rewrite skipn_app, Nat.sub_diag, skipn_all. reflexivity. }
  unfold check_product_content, try_except, session_get, response_text.
  run_io.
  destruct (net (requests s)) as [e | st tx]; run_io.
  - destruct e; run_io; cbn [snd events]; rewrite <- ?app_assoc;
      rewrite Hskip; reflexivity.
  - destruct (st =? 200)%Z; run_io.
    + destruct tx as [html | e]; run_io.
      * cbn [snd events]. rewrite Hskip. reflexivity.
      * destruct e; run_io; cbn [snd events]; rewrite <- ?app_assoc;
          rewrite Hskip; reflexivity.
    + cbn [snd events]. rewrite Hskip. destruct tx; reflexivity.
Qed.

(** ** Edge cases of [fetch_product_page] *)

(** With no attempt allowed ([retries] zero or negative) and option
    "efacil", the pipeline reports Erro for the search URL without
    issuing any request, sleeping or logging. *)
Theorem no_attempt_no_request BeautifulSoup net base_url code retries s :
  (retries <= 0)%Z ->
  fetch_product_page BeautifulSoup net base_url code "efacil" retries s
  = (Returned (code, base_url ++ "/loja/busca/?searchTerm=" ++ code, Erro), s).
Proof.
  intros Hle. unfold fetch_product_page, search_url_of, range.
  rewrite String.eqb_refl.
  replace (Z.to_nat retries) with 0 by lia. reflexivity.
Qed.

Lemma no_attempt_no_request_witness :
  (0 <= 0)%Z /\
  fetch_product_page toy_soup netA efacil_url "12345" "efacil" 0 init_state
  = (Returned ("12345", efacil_url ++ "/loja/busca/?searchTerm=" ++ "12345", Erro),
     init_state).
Proof.
  split; [lia|].
  apply (no_attempt_no_request toy_soup netA efacil_url "12345" 0 init_state).
  lia.
Defined.

(** Only "efacil" is served.  For every other option, not only
    "martins", and every number of retries, zero and negative included,
    [fetch_product_page] raises for the unassigned [search_url] before
    any request: the branch of line 59 that would return Erro for such
    an option is never reached. *)
Theorem other_options_raise BeautifulSoup net base_url code opt retries s :
  opt <> "efacil" ->
  fetch_product_page BeautifulSoup net base_url code opt retries s
  = (Raised (UnboundLocalError "search_url"), s).
Proof.
  intros Hne. apply fetch_unbound_search_url. now apply String.eqb_neq.
Qed.

Lemma other_options_raise_witness :
  "extra" <> "efacil" /\
  fetch_product_page toy_soup netA efacil_url "12345" "extra" 0 init_state
  = (Raised (UnboundLocalError "search_url"), init_state).
Proof.
  assert (H : "extra" <> "efacil") by discriminate.
  split; [exact H|].
  apply (other_options_raise toy_soup netA efacil_url "12345" "extra" 0
           init_state H).
Defined.

(** * Further properties of the scheduler *)

Lemma known_key_cases opt :
  truthy (dict_get base_urls opt EmptyString) = true ->
  opt = "martins" \/ opt = "efacil".
Proof.
  unfold base_urls, dict_get.
  destruct (String.eqb_spec "martins" opt) as [<- | _]; [now left|].
  destruct (String.eqb_spec "efacil" opt) as [<- | _]; [now right|].
  discriminate.
Qed.

Lemma length_group_values (groups : list (list task)) :
  List.length (flat_map (fun g => repeat (group_end g) (List.length g)) groups)
  = List.length (List.concat groups).
Proof.
  induction groups as [|g groups IH]; [reflexivity|].
  cbn [flat_map List.concat]. now rewrite !length_app, repeat_length, IH.
Qed.

(** What a run that comes back for a key of the table is made of. *)
Lemma returned_run_counts BeautifulSoup net sched opt codes rs log :
  truthy (dict_get base_urls opt EmptyString) = true ->
  process_skus BeautifulSoup net sched opt codes = (Returned rs, log) ->
  Permutation (map rec_code rs) codes /\
  Forall (fun r => terminal (rec_status r)) rs /\
  List.length (progress_values log) = List.length codes /\
  progress_values log = values_from (List.length codes) 0 codes.
Proof.
  intros Hkey Hrun.
  destruct (process_skus_returned _ _ _ _ _ _ _ Hkey Hrun) as [Hrs ->].
  apply returned_codes in Hrs. destruct Hrs as [Hcodes Hterm].
  split.
  { rewrite Hcodes. rewrite <- (map_snd_enumerate_from codes 0) at 2.
    apply Permutation_map. fold (enumerate codes).
    rewrite <- concat_groups_of. apply group_orders_perm. }
  split; [exact Hterm|].
  rewrite progress_values_groups, length_group_values, concat_groups_of.
  split; [apply length_enumerate_from|].
  unfold groups_of, chunks, enumerate. now rewrite length_enumerate_from.
Qed.

(** With option "efacil" a run never raises, whatever the site answers
    and in whatever order the tasks finish: it returns one record per
    input identifier (the same identifiers, up to order), each with one
    of the three messages, and has called the progress callback once per
    identifier. *)
Theorem efacil_run_completes BeautifulSoup net sched codes :
  exists rs log,
    process_skus BeautifulSoup net sched "efacil" codes = (Returned rs, log) /\
    List.length rs = List.length codes /\
    Permutation (map rec_code rs) codes /\
    Forall (fun r => terminal (rec_status r)) rs /\
    List.length (progress_values log) = List.length codes.
Proof.
  destruct (process_skus_efacil_returns BeautifulSoup net sched codes)
    as (rs & log & Hrun).
  exists rs, log. split; [exact Hrun|].
  destruct (returned_run_counts _ _ _ _ _ _ _ (known_key_truthy _ efacil_known)
              Hrun) as (HP & Hterm & Hlen & _).
  split; [|auto].
  apply Permutation_length in HP. now rewrite length_map in HP.
Qed.

(** When every pipeline raises, the run raises at the first task awaited
    in the first group flushed. *)
Lemma process_loop_first_raise BeautifulSoup net sched base_url opt n e :
  (forall t, run_task BeautifulSoup net base_url opt t = Raised e) ->
  forall l s tasks results log,
    l <> [] -> s + List.length l = n ->
    (List.length tasks < BATCH_SIZE)%nat ->
    exists d,
      In d (map fst (firstn BATCH_SIZE (tasks ++ enumerate_from s l))) /\
      process_loop BeautifulSoup net sched base_url opt n (enumerate_from s l)
        tasks results log
      = (Raised e,
         (log ++ [Launch (map fst (firstn BATCH_SIZE
                                     (tasks ++ enumerate_from s l)));
                  Completed d])%list).
Proof.
  intros Hrun.
  induction l as [|x l IH]; intros s tasks results log Hne Hn Htasks;
    [congruence|].
  rewrite enumerate_from_cons. cbn [process_loop]. cbn [List.length] in Hn.
  set (tasks' := (tasks ++ [(s, x)])%list).
  assert (Hlen : List.length tasks' = S (List.length tasks)).
  { unfold tasks'. rewrite length_app. cbn. lia. }
  replace (tasks ++ (s, x) :: enumerate_from (S s) l)%list
    with (tasks' ++ enumerate_from (S s) l)%list
    by (unfold tasks'; rewrite <- app_assoc; reflexivity).
  assert (Hflush : forall rest,
             (rest = [] \/ List.length tasks' = BATCH_SIZE) ->
             exists d,
               In d (map fst (firstn BATCH_SIZE (tasks' ++ rest))) /\
               await_all BeautifulSoup net base_url opt s
                 (as_completed (sched s) tasks') results
                 (log ++ [Launch (map fst tasks')])%list
               = (Raised e,
                  (log ++ [Launch (map fst (firstn BATCH_SIZE (tasks' ++ rest)));
                           Completed d])%list)).
  { intros rest Hrest.
    assert (Hfirst : firstn BATCH_SIZE (tasks' ++ rest) = tasks').
    { destruct Hrest as [-> | Hfull].
      - rewrite app_nil_r. apply firstn_all2. lia.
      - rewrite firstn_app, Hfull, Nat.sub_diag. cbn [firstn].
        rewrite app_nil_r. apply firstn_all2. lia. }
    rewrite Hfirst.
    pose proof (as_completed_perm (sched s) tasks') as HP.
    destruct (as_completed (sched s) tasks') as [|t order] eqn:Eo.
    - apply Permutation_length in HP. cbn in HP. lia.
    - exists (fst t). split.
      + apply in_map. eapply Permutation_in; [exact HP | now left].
      + cbn [await_all]. rewrite Hrun, <- app_assoc. reflexivity. }
  destruct l as [|y l].
  - replace (s =? n - 1)%nat with true
      by (symmetry; apply Nat.eqb_eq; cbn [List.length] in Hn; lia).
    rewrite orb_true_r.
    destruct (Hflush (enumerate_from (S s) []) (or_introl eq_refl))
      as (d & Hin & ->).
    exists d. split; [exact Hin | reflexivity].
  - replace (s =? n - 1)%nat with false
      by (symmetry; apply Nat.eqb_neq; cbn [List.length] in Hn; lia).
    rewrite orb_false_r.
    destruct (Nat.leb_spec BATCH_SIZE (List.length tasks')) as [Hfull | Hroom].
    + assert (Heq : List.length tasks' = BATCH_SIZE) by lia.
      destruct (Hflush (enumerate_from (S s) (y :: l)) (or_intror Heq))
        as (d & Hin & ->).
      exists d. split; [exact Hin | reflexivity].
    + apply IH; [discriminate | lia | exact Hroom].
Qed.

Lemma firstn_seq_min k : forall s n, firstn k (seq s n) = seq s (Nat.min k n).
Proof.
  induction k as [|k IH]; intros s n; [reflexivity|].
  destruct n as [|n]; [reflexivity|].
  cbn [seq firstn Nat.min]. now rewrite IH.
Qed.

(** The two shapes of a run with the key "martins". *)
Lemma martins_case BeautifulSoup net sched codes :
  match codes with
  | [] =>
      process_skus BeautifulSoup net sched "martins" codes = (Returned [], [])
  | _ :: _ =>
      exists g d,
        process_skus BeautifulSoup net sched "martins" codes
        = (Raised (UnboundLocalError "search_url"), [Launch g; Completed d])
  end.
Proof.
  destruct codes as [|c codes]; [reflexivity|].
  unfold process_skus.
  change (negb (truthy (dict_get base_urls "martins" EmptyString))) with false.
  cbv iota. unfold enumerate.
  destruct (process_loop_first_raise BeautifulSoup net sched
              (dict_get base_urls "martins" EmptyString) "martins"
              (List.length (c :: codes)) (UnboundLocalError "search_url"))
    with (l := c :: codes) (s := 0) (tasks := @nil task)
         (results := @nil record) (log := @nil run_event)
    as (d & _ & Hrun).
  - intros t. unfold run_task. now rewrite fetch_unbound_search_url.
  - discriminate.
  - reflexivity.
  - apply BATCH_SIZE_pos.
  - eauto.
Qed.

(** The runs of the key "martins".  Over an empty list the run returns
    an empty list.  Over a non-empty one it hands the first group to
    [as_completed], the first [min(50, N)] identifiers, and raises as
    soon as one of its tasks is awaited: no record is kept, the progress
    callback is never called, and no later group is launched. *)
Theorem martins_run_stops_at_first_task BeautifulSoup net sched codes :
  match codes with
  | [] =>
      process_skus BeautifulSoup net sched "martins" codes = (Returned [], [])
  | _ :: _ =>
      exists d,
        In d (seq 0 (Nat.min BATCH_SIZE (List.length codes))) /\
        process_skus BeautifulSoup net sched "martins" codes
        = (Raised (UnboundLocalError "search_url"),
           [Launch (seq 0 (Nat.min BATCH_SIZE (List.length codes)));
            Completed d])
  end.
Proof.
  destruct codes as [|c codes]; [reflexivity|].
  unfold process_skus.
  change (negb (truthy (dict_get base_urls "martins" EmptyString))) with false.
  cbv iota. unfold enumerate.
  destruct (process_loop_first_raise BeautifulSoup net sched
              (dict_get base_urls "martins" EmptyString) "martins"
              (List.length (c :: codes)) (UnboundLocalError "search_url"))
    with (l := c :: codes) (s := 0) (tasks := @nil task)
         (results := @nil record) (log := @nil run_event)
    as (d & Hin & Hrun).
  - intros t. unfold run_task. now rewrite fetch_unbound_search_url.
  - discriminate.
  - reflexivity.
  - apply BATCH_SIZE_pos.
  - cbn [app] in Hin, Hrun.
    rewrite <- firstn_map, map_fst_enumerate_from, firstn_seq_min in Hin, Hrun.
    exists d. split; [exact Hin | exact Hrun].
Qed.

Lemma values_from_range fuel : forall s l,
  (List.length l <= fuel)%nat ->
  Forall (fun v => (s + 1 <= v <= s + List.length l)%nat) (values_from fuel s l).
Proof.
  induction fuel as [|fuel IH]; intros s l Hl; [constructor|].
  destruct l as [|x l]; [constructor|].
  rewrite values_from_cons. pose proof BATCH_SIZE_pos as HB.
  apply Forall_app. split.
  - apply Forall_forall. intros v Hv. apply repeat_spec in Hv.
    cbn [List.length]. lia.
  - eapply Forall_impl; [|apply IH].
    + cbn beta. intros v Hv. rewrite length_skipn in Hv.
      cbn [List.length] in *. lia.
    + rewrite length_skipn. cbn [List.length] in *. lia.
Qed.

(** The values passed to the callback, in any run. *)
Lemma progress_values_bounds BeautifulSoup net sched opt codes :
  Forall (fun v => (1 <= v <= List.length codes)%nat)
    (progress_values (snd (process_skus BeautifulSoup net sched opt codes))) /\
  (List.length
     (progress_values (snd (process_skus BeautifulSoup net sched opt codes)))
   <= List.length codes)%nat.
Proof.
  destruct (truthy (dict_get base_urls opt EmptyString)) eqn:Hkey.
  - destruct (known_key_cases opt Hkey) as [-> | ->].
    + pose proof (martins_case BeautifulSoup net sched codes) as H.
      destruct codes as [|c codes]; [rewrite H; cbn; split; [constructor|lia]|].
      destruct H as (g & d & ->). cbn. split; [constructor|lia].
    + destruct (process_skus_efacil_returns BeautifulSoup net sched codes)
        as (rs & log & Hrun).
      destruct (returned_run_counts _ _ _ _ _ _ _ Hkey Hrun)
        as (_ & _ & Hlen & Hval).
      rewrite Hrun. cbn [snd]. split; [|lia].
      rewrite Hval. apply (values_from_range _ 0 codes). lia.
  - unfold process_skus. rewrite Hkey. cbn. split; [constructor|lia].
Qed.

(** In every run, whatever the option, the site and the order of
    completion, each value passed to the progress callback lies between
    1 and the number of identifiers, and the callback is called at most
    once per identifier.  So the callback is never called for an empty
    list, and a caller dividing the value by the number of identifiers
    never divides by zero and never gets more than one. *)
Theorem callback_values_in_range BeautifulSoup net sched opt codes :
  Forall (fun v => (1 <= v <= List.length codes)%nat)
    (progress_values (snd (process_skus BeautifulSoup net sched opt codes))) /\
  (List.length
     (progress_values (snd (process_skus BeautifulSoup net sched opt codes)))
   <= List.length codes)%nat.
Proof. apply progress_values_bounds. Qed.

Lemma completion_order_first {A} (pick : nat -> nat) :
  (forall k, pick k = 0) ->
  forall (l : list A) k, completion_order pick k (List.length l) l = l.
Proof.
  intros Hpick. induction l as [|x l IH]; intros k; [reflexivity|].
  cbn [List.length completion_order]. rewrite Hpick.
  rewrite Nat.Div0.mod_0_l. cbn [take_at]. now rewrite IH.
Qed.

Lemma group_orders_first sched groups :
  (forall i k, sched i k = 0) ->
  flat_map (group_order sched) groups = List.concat groups.
Proof.
  intros Hs. induction groups as [|g groups IH]; [reflexivity|].
  cbn [flat_map List.concat]. rewrite IH. f_equal.
  unfold group_order, as_completed. apply completion_order_first.
  intros k. apply Hs.
Qed.

(** When in every group the tasks finish in the order in which they
    were submitted, a run that comes back returns its records in the
    order of the input: the record at each position is the one of the
    identifier at that position. *)
Theorem submission_order_is_kept BeautifulSoup net sched opt codes rs log :
  (forall i k, sched i k = 0) ->
  In opt (map fst base_urls) ->
  process_skus BeautifulSoup net sched opt codes = (Returned rs, log) ->
  map rec_code rs = codes /\
  completions log = seq 0 (List.length codes) /\
  map Returned rs
  = map (run_task BeautifulSoup net (dict_get base_urls opt EmptyString) opt)
      (enumerate codes).
Proof.
  intros Hs Hkey Hrun.
  destruct (process_skus_returned _ _ _ _ _ _ _ (known_key_truthy _ Hkey) Hrun)
    as [Hrs ->].
  rewrite completions_groups.
  rewrite (group_orders_first sched _ Hs), concat_groups_of in *.
  split; [|split; [apply map_fst_enumerate_from | exact Hrs]].
  apply returned_codes in Hrs. destruct Hrs as [-> _].
  apply map_snd_enumerate_from.
Qed.

Lemma submission_order_is_kept_witness :
  (forall i k : nat, (fun _ _ : nat => 0) i k = 0) /\
  In "efacil" (map fst base_urls) /\
  process_skus toy_soup (fun _ => netA) (fun _ _ => 0) "efacil" ["111"; "12345"]
  = (Returned
       [("111", "https://www.efacil.com.br/loja/busca/?searchTerm=111", "Erro");
        ("12345", "https://www.efacil.com.br/p/12345", "Sim")],
     [Launch [0; 1]; Completed 0; Progress 2; Completed 1; Progress 2]) /\
  map rec_code
    [("111", "https://www.efacil.com.br/loja/busca/?searchTerm=111", "Erro");
     ("12345", "https://www.efacil.com.br/p/12345", "Sim")]
  = ["111"; "12345"].
Proof.
  assert (Hs : forall i k : nat, (fun _ _ : nat => 0) i k = 0)
    by (intros; reflexivity).
  assert (Hrun : process_skus toy_soup (fun _ => netA) (fun _ _ => 0) "efacil"
                   ["111"; "12345"]
                 = (Returned
                      [("111", "https://www.efacil.com.br/loja/busca/?searchTerm=111", "Erro");
                       ("12345", "https://www.efacil.com.br/p/12345", "Sim")],
                    [Launch [0; 1]; Completed 0; Progress 2; Completed 1;
                     Progress 2]))
    by (vm_compute; reflexivity).
  split; [exact Hs|]. split; [exact efacil_known|]. split; [exact Hrun|].
  destruct (submission_order_is_kept toy_soup (fun _ => netA) (fun _ _ => 0)
              "efacil" ["111"; "12345"] _ _ Hs efacil_known Hrun) as [H _].
  exact H.
Defined.

(** ** The order of completion *)

Lemma returned_inj (rs1 rs2 : list record) :
  map Returned rs1 = map (@Returned record) rs2 -> rs1 = rs2.
Proof.
  revert rs2. induction rs1 as [|r rs1 IH]; intros [|r' rs2] H;
    try discriminate; [reflexivity|].
  cbn [map] in H. injection H as -> H. f_equal. now apply IH.
Qed.

(** The order of completion changes the order of the records and nothing
    else.  With option "efacil" and the same answers of the site to each
    pipeline, two runs that differ in the order in which tasks finish
    return the same records up to order, and pass the same values to the
    progress callback in the same order. *)
Theorem completion_order_only_reorders BeautifulSoup net sched1 sched2 codes :
  exists rs1 log1 rs2 log2,
    process_skus BeautifulSoup net sched1 "efacil" codes = (Returned rs1, log1) /\
    process_skus BeautifulSoup net sched2 "efacil" codes = (Returned rs2, log2) /\
    Permutation rs1 rs2 /\
    progress_values log1 = progress_values log2.
Proof.
  destruct (process_skus_efacil_returns BeautifulSoup net sched1 codes)
    as (rs1 & log1 & Hrun1).
  destruct (process_skus_efacil_returns BeautifulSoup net sched2 codes)
    as (rs2 & log2 & Hrun2).
  exists rs1, log1, rs2, log2. split; [exact Hrun1|]. split; [exact Hrun2|].
  pose proof (known_key_truthy _ efacil_known) as Hkey.
  destruct (process_skus_returned _ _ _ _ _ _ _ Hkey Hrun1) as [Hrs1 _].
  destruct (process_skus_returned _ _ _ _ _ _ _ Hkey Hrun2) as [Hrs2 _].
  destruct (returned_run_counts _ _ _ _ _ _ _ Hkey Hrun1) as (_ & _ & _ & Hv1).
  destruct (returned_run_counts _ _ _ _ _ _ _ Hkey Hrun2) as (_ & _ & _ & Hv2).
  split; [|now rewrite Hv1, Hv2].
  assert (HP : Permutation (map Returned rs1) (map (@Returned record) rs2)).
  { rewrite Hrs1, Hrs2. apply Permutation_map.
    eapply perm_trans; [apply group_orders_perm|].
    apply Permutation_sym, group_orders_perm. }
  apply Permutation_map_inv in HP. destruct HP as (rs3 & Heq & HP).
  apply returned_inj in Heq. subst rs3. apply Permutation_sym, HP.
Qed.

(** * Properties of the window *)

(** ** The progress bar *)

(** Callbacks whose values lie between 1 and [total] all return; the bar
    ends at the last value over [total]. *)
Lemma progress_callbacks_in_range total :
  forall values self,
    Forall (fun v => (1 <= v <= total)%nat) values ->
    progress_callbacks total values self
    = (None,
       match values with
       | [] => self
       | _ :: _ => set_progress (mkFraction (last values 0) total) self
       end).
Proof.
  induction values as [|v rest IH]; intros self Hall; [reflexivity|].
  inversion Hall as [|v' rest' Hv Hrest]; subst.
  cbn [progress_callbacks]. unfold progress_callback, update_progress_bar.
  replace (total =? 0)%nat with false by (symmetry; apply Nat.eqb_neq; lia).
  rewrite IH by exact Hrest.
  destruct rest as [|w rest]; reflexivity.
Qed.

(** What the callbacks of a run do to the window. *)
Lemma run_callbacks BeautifulSoup net sched opt codes self :
  let values :=
    progress_values (snd (process_skus BeautifulSoup net sched opt codes)) in
  progress_callbacks (List.length codes) values self
  = (None,
     match values with
     | [] => self
     | _ :: _ =>
         set_progress (mkFraction (last values 0) (List.length codes)) self
     end) /\
  Forall (fun v => (1 <= v <= List.length codes)%nat) values.
Proof.
  cbv zeta.
  destruct (progress_values_bounds BeautifulSoup net sched opt codes) as [Hall _].
  split; [|exact Hall]. now apply progress_callbacks_in_range.
Qed.

(** The progress bar never fails.  In every run, for every option, site
    and order of completion, every call of [update_progress_bar] made
    through the callback returns: the total is never zero when it is
    called.  The calls change nothing but the bar, which is left where
    it was (no call) or at a quotient between 1/N and N/N, N being the
    number of identifiers. *)
Theorem progress_bar_never_fails BeautifulSoup net sched opt codes self :
  exists self',
    progress_callbacks (List.length codes)
      (progress_values (snd (process_skus BeautifulSoup net sched opt codes))) self
    = (None, self') /\
    selected_file_label self' = selected_file_label self /\
    option_var self' = option_var self /\
    result_label self' = result_label self /\
    effects self' = effects self /\
    (progress_bar self' = progress_bar self \/
     (denominator (progress_bar self') = List.length codes /\
      1 <= numerator (progress_bar self') <= List.length codes)%nat).
Proof.
  destruct (run_callbacks BeautifulSoup net sched opt codes self) as [-> Hall].
  eexists. split; [reflexivity|].
  destruct (progress_values _) as [|v rest] eqn:E.
  - repeat split; auto.
  - cbn [set_progress selected_file_label option_var result_label effects
           progress_bar numerator denominator].
    repeat (split; [reflexivity|]). right. split; [reflexivity|].
    assert (Hin : In (last (v :: rest) 0) (v :: rest)).
    { destruct (exists_last (l := v :: rest)) as (l' & a & Ea); [discriminate|].
      rewrite Ea, last_last. apply in_or_app. right. now left. }
    rewrite Forall_forall in Hall. exact (Hall _ Hin).
Qed.

(** ** What a run leaves of the window *)

Section WindowFacts.

Variable BeautifulSoup : string -> outcome Soup.
Variable net : nat -> nat -> get_result.
Variable sched : nat -> nat -> nat.
Variable dataframe : Type.
Variable read_excel : string -> outcome dataframe.
Variable columns : dataframe -> list string.
Variable sku_codes : dataframe -> outcome (list string).
Variable to_excel_raises : string -> list record -> option exn.
Variable startfile_raises : string -> option exn.

Lemma run_processing_frame opt codes dialog self :
  let self' :=
    run_processing BeautifulSoup net sched to_excel_raises startfile_raises
      opt codes (List.length codes) dialog self in
  selected_file_label self' = selected_file_label self /\
  option_var self' = option_var self /\
  bar_after (List.length codes) (progress_bar self) (progress_bar self').
Proof.
  cbv zeta. unfold run_processing.
  destruct (progress_bar_never_fails BeautifulSoup net sched opt codes self)
    as (self1 & Hcb & Hfile & Hopt & _ & _ & Hbar).
  destruct (process_skus BeautifulSoup net sched opt codes) as [o log].
  cbn [snd] in Hcb. rewrite Hcb. unfold save_file.
  destruct o as [results | e];
    [destruct (truthy dialog);
       [destruct (to_excel_raises dialog results);
          [|destruct (startfile_raises dialog)] |] |];
    cbn [report_error add_effect set_result selected_file_label option_var
           progress_bar]; auto.
Qed.

(** With option "efacil": the run returns its records, the callbacks fill
    the bar, and what follows depends on the dialog and the file system
    only. *)
Lemma run_processing_efacil codes dialog self :
  exists rows,
    List.length rows = List.length codes /\
    Permutation (map rec_code rows) codes /\
    run_processing BeautifulSoup net sched to_excel_raises startfile_raises
      "efacil" codes (List.length codes) dialog self
    = let self1 :=
        match codes with
        | [] => self
        | _ :: _ =>
            set_progress
              (mkFraction (List.length codes) (List.length codes)) self
        end in
      if truthy dialog then
        match to_excel_raises dialog rows with
        | Some e => report_error e self1
        | None =>
            let self2 :=
              set_result ("Resultados salvos em " ++ dialog ++ ".")
                (add_effect (ToExcel dialog rows) self1) in
            match startfile_raises dialog with
            | Some e => report_error e self2
            | None => add_effect (StartFile dialog) self2
            end
        end
      else self1.
Proof.
  destruct (process_skus_efacil_returns BeautifulSoup net sched codes)
    as (rows & log & Hrun).
  destruct (returned_run_counts _ _ _ _ _ _ _ (known_key_truthy _ efacil_known)
              Hrun) as (HP & _ & Hlen & Hval).
  exists rows. split; [|split; [exact HP|]].
  { apply Permutation_length in HP. now rewrite length_map in HP. }
  unfold run_processing.
  pose proof (run_callbacks BeautifulSoup net sched "efacil" codes self) as Hcb.
  cbv zeta in Hcb. destruct Hcb as [Hcb _].
  rewrite Hrun in *. cbn [snd] in Hcb. rewrite Hcb. unfold save_file.
  assert (Hself1 :
            match progress_values log with
            | [] => self
            | _ :: _ =>
                set_progress
                  (mkFraction (last (progress_values log) 0) (List.length codes))
                  self
            end
            = match codes with
              | [] => self
              | _ :: _ =>
                  set_progress
                    (mkFraction (List.length codes) (List.length codes)) self
              end).
  { destruct codes as [|c codes].
    - destruct (progress_values log); [reflexivity | discriminate Hlen].
    - destruct (progress_values log) as [|v rest] eqn:E; [discriminate Hlen|].
      rewrite Hval, values_from_last by lia. reflexivity. }
  rewrite Hself1. reflexivity.
Qed.

End WindowFacts.

(** What holds of every state the window can reach. *)
Lemma reachable_invariant self :
  reachable self ->
  option_var self = "efacil" /\
  (denominator (progress_bar self) <> 0 /\
   numerator (progress_bar self) <= denominator (progress_bar self))%nat.
Proof.
  induction 1 as [| file_path self Hr [IHo IHb]
                  | sf net sched df rd cols sku tx st dialog self self' Hr
                      [IHo IHb] Hp].
  - cbn. split; [reflexivity|]. lia.
  - unfold select_file. destruct (truthy file_path); cbn; auto.
  - unfold process_file in Hp.
    destruct (negb (truthy (selected_file_label self)));
      [injection Hp as <-; cbn; auto|].
    destruct (rd (selected_file_label self)) as [d | e]; [|discriminate].
    destruct (negb (existsb (String.eqb "SKU") (cols d)));
      [injection Hp as <-; cbn; auto|].
    destruct (sku d) as [codes | e]; [|discriminate].
    injection Hp as <-.
    destruct (run_processing_frame sf net sched tx st (option_var self) codes
                dialog self) as (_ & Ho & Hb).
    split; [now rewrite Ho|].
    destruct Hb as [-> | [Hd Hn]]; [exact IHb | lia].
Qed.

(** The option of the window is fixed.  No method assigns [option_var]:
    in every state the window can reach it is "efacil", so that every
    run started from the window is a run of [process_skus] with option
    "efacil".  In every such state the progress bar holds a quotient
    with a non-zero denominator that is at most one. *)
Theorem window_option_is_efacil self :
  reachable self ->
  option_var self = "efacil" /\
  (denominator (progress_bar self) <> 0 /\
   numerator (progress_bar self) <= denominator (progress_bar self))%nat.
Proof. apply reachable_invariant. Qed.

Lemma window_option_is_efacil_witness :
  reachable (select_file "skus.xlsx" URLChecker_init) /\
  option_var (select_file "skus.xlsx" URLChecker_init) = "efacil".
Proof.
  assert (H : reachable (select_file "skus.xlsx" URLChecker_init))
    by (apply reach_select_file, reach_init).
  split; [exact H|].
  destruct (window_option_is_efacil _ H) as [Ho _]. exact Ho.
Defined.

(** ** A run started from the window *)

Section WindowRun.

Variable BeautifulSoup : string -> outcome Soup.
Variable net : nat -> nat -> get_result.
Variable sched : nat -> nat -> nat.
Variable dataframe : Type.
Variable read_excel : string -> outcome dataframe.
Variable columns : dataframe -> list string.
Variable sku_codes : dataframe -> outcome (list string).
Variable to_excel_raises : string -> list record -> option exn.
Variable startfile_raises : string -> option exn.

(** With a file selected, a sheet read and its SKU column extracted,
    [process_file] is the run with option "efacil". *)
Lemma process_file_runs dialog self df codes :
  reachable self ->
  truthy (selected_file_label self) = true ->
  read_excel (selected_file_label self) = Returned df ->
  existsb (String.eqb "SKU") (columns df) = true ->
  sku_codes df = Returned codes ->
  process_file BeautifulSoup net sched dataframe read_excel columns sku_codes
    to_excel_raises startfile_raises dialog self
  = Returned
      (run_processing BeautifulSoup net sched to_excel_raises startfile_raises
         "efacil" codes (List.length codes) dialog self).
Proof.
  intros Hr Hfile Hread Hcol Hsku.
  assert (Hopt : option_var self = "efacil")
    by (apply reachable_invariant; exact Hr).
  unfold process_file. rewrite Hfile, Hread, Hcol, Hsku, Hopt. reflexivity.
Qed.

(** A complete run from the window.  From any state the window can
    reach, with a file selected, a sheet that has a SKU column, a path
    chosen in the save dialog, and no failure while writing or opening
    the file: [process_file] writes exactly one row per SKU of the sheet
    (the same identifiers, up to order) to the chosen path, opens it,
    reports the path in the result label, and leaves the progress bar
    full, or untouched when the sheet has no row. *)
Theorem window_run_saves_one_row_per_sku dialog self df codes :
  reachable self ->
  truthy (selected_file_label self) = true ->
  read_excel (selected_file_label self) = Returned df ->
  existsb (String.eqb "SKU") (columns df) = true ->
  sku_codes df = Returned codes ->
  truthy dialog = true ->
  (forall rows, to_excel_raises dialog rows = None) ->
  startfile_raises dialog = None ->
  exists rows self',
    process_file BeautifulSoup net sched dataframe read_excel columns sku_codes
      to_excel_raises startfile_raises dialog self = Returned self' /\
    List.length rows = List.length codes /\
    Permutation (map rec_code rows) codes /\
    effects self' = (effects self ++ [ToExcel dialog rows; StartFile dialog])%list /\
    result_label self' = "Resultados salvos em " ++ dialog ++ "." /\
    progress_bar self'
    = match codes with
      | [] => progress_bar self
      | _ :: _ => mkFraction (List.length codes) (List.length codes)
      end.
Proof.
  intros Hr Hfile Hread Hcol Hsku Hdialog Hexcel Hstart.
  rewrite (process_file_runs dialog self df codes Hr Hfile Hread Hcol Hsku).
  destruct (run_processing_efacil BeautifulSoup net sched to_excel_raises
              startfile_raises codes dialog self) as (rows & Hlen & HP & ->).
  cbv zeta. rewrite Hdialog, Hexcel, Hstart.
  exists rows. eexists. split; [reflexivity|].
  split; [exact Hlen|]. split; [exact HP|].
  destruct codes; cbn [add_effect set_result set_progress effects result_label
                         progress_bar];
    rewrite <- ?app_assoc; auto.
Qed.

(** A cancelled save dialog discards the results.  In the same
    situation, when the save dialog returns no path, [process_file]
    returns after all pipelines have run and the bar has filled, but
    nothing is written or opened and the result label is left as it was:
    nothing tells that the results are gone. *)
Theorem cancelled_save_discards_results dialog self df codes :
  reachable self ->
  truthy (selected_file_label self) = true ->
  read_excel (selected_file_label self) = Returned df ->
  existsb (String.eqb "SKU") (columns df) = true ->
  sku_codes df = Returned codes ->
  truthy dialog = false ->
  exists self',
    process_file BeautifulSoup net sched dataframe read_excel columns sku_codes
      to_excel_raises startfile_raises dialog self = Returned self' /\
    effects self' = effects self /\
    result_label self' = result_label self /\
    progress_bar self'
    = match codes with
      | [] => progress_bar self
      | _ :: _ => mkFraction (List.length codes) (List.length codes)
      end.
Proof.
  intros Hr Hfile Hread Hcol Hsku Hdialog.
  rewrite (process_file_runs dialog self df codes Hr Hfile Hread Hcol Hsku).
  destruct (run_processing_efacil BeautifulSoup net sched to_excel_raises
              startfile_raises codes dialog self) as (rows & _ & _ & ->).
  cbv zeta. rewrite Hdialog.
  eexists. split; [reflexivity|].
  destruct codes; cbn [set_progress effects result_label progress_bar]; auto.
Qed.

(** A failure to open the saved file hides the save.  In the same
    situation, when the file is written but [os.startfile] raises (as it
    does where it does not exist), the rows are on disk, one per SKU,
    yet the result label reads "Erro: ..." and not the path of the
    file. *)
Theorem viewer_failure_hides_saved_results dialog self df codes e :
  reachable self ->
  truthy (selected_file_label self) = true ->
  read_excel (selected_file_label self) = Returned df ->
  existsb (String.eqb "SKU") (columns df) = true ->
  sku_codes df = Returned codes ->
  truthy dialog = true ->
  (forall rows, to_excel_raises dialog rows = None) ->
  startfile_raises dialog = Some e ->
  exists rows self',
    process_file BeautifulSoup net sched dataframe read_excel columns sku_codes
      to_excel_raises startfile_raises dialog self = Returned self' /\
    List.length rows = List.length codes /\
    effects self'
    = (effects self
       ++ [ToExcel dialog rows;
           LoggingError ("Erro de processamento: " ++ str_exn e)])%list /\
    result_label self' = "Erro: " ++ str_exn e.
Proof.
  intros Hr Hfile Hread Hcol Hsku Hdialog Hexcel Hstart.
  rewrite (process_file_runs dialog self df codes Hr Hfile Hread Hcol Hsku).
  destruct (run_processing_efacil BeautifulSoup net sched to_excel_raises
              startfile_raises codes dialog self) as (rows & Hlen & _ & ->).
  cbv zeta. rewrite Hdialog, Hexcel, Hstart.
  exists rows. eexists. split; [reflexivity|]. split; [exact Hlen|].
  destruct codes; cbn [report_error add_effect set_result set_progress effects
                         result_label];
    rewrite <- ?app_assoc; auto.
Qed.

End WindowRun.

Lemma demo_window_reachable : reachable demo_window.
Proof. apply reach_select_file, reach_init. Defined.

Lemma window_run_saves_one_row_per_sku_witness :
  reachable demo_window /\
  truthy (selected_file_label demo_window) = true /\
  toy_read_excel (selected_file_label demo_window) = Returned ["12345"; "777"] /\
  existsb (String.eqb "SKU") (toy_columns ["12345"; "777"]) = true /\
  toy_sku_codes ["12345"; "777"] = Returned ["12345"; "777"] /\
  truthy "out.xlsx" = true /\
  (forall rows : list record,
     (fun (_ : string) (_ : list record) => @None exn) "out.xlsx" rows = None) /\
  (fun _ : string => @None exn) "out.xlsx" = None /\
  exists rows self',
    process_file toy_soup (fun _ => netA) (fun _ _ => 0) (list string)
      toy_read_excel toy_columns toy_sku_codes (fun _ _ => None)
      (fun _ => None) "out.xlsx" demo_window = Returned self' /\
    List.length rows = List.length ["12345"; "777"] /\
    Permutation (map rec_code rows) ["12345"; "777"] /\
    effects self'
    = (effects demo_window ++ [ToExcel "out.xlsx" rows; StartFile "out.xlsx"])%list /\
    result_label self' = "Resultados salvos em " ++ "out.xlsx" ++ "." /\
    progress_bar self' = mkFraction 2 2.
Proof.
  split; [exact demo_window_reachable|].
  split; [reflexivity|]. split; [reflexivity|]. split; [reflexivity|].
  split; [reflexivity|]. split; [reflexivity|].
  split; [intros rows; reflexivity|]. split; [reflexivity|].
  exact (window_run_saves_one_row_per_sku toy_soup (fun _ => netA)
           (fun _ _ => 0) (list string) toy_read_excel toy_columns
           toy_sku_codes (fun _ _ => None) (fun _ => None) "out.xlsx"
           demo_window ["12345"; "777"] ["12345"; "777"]
           demo_window_reachable eq_refl eq_refl eq_refl eq_refl eq_refl
           (fun _ => eq_refl) eq_refl).
Defined.

Lemma cancelled_save_discards_results_witness :
  reachable demo_window /\
  truthy (selected_file_label demo_window) = true /\
  toy_read_excel (selected_file_label demo_window) = Returned ["12345"; "777"] /\
  existsb (String.eqb "SKU") (toy_columns ["12345"; "777"]) = true /\
  toy_sku_codes ["12345"; "777"] = Returned ["12345"; "777"] /\
  truthy EmptyString = false /\
  exists self',
    process_file toy_soup (fun _ => netA) (fun _ _ => 0) (list string)
      toy_read_excel toy_columns toy_sku_codes (fun _ _ => None)
      (fun _ => None) EmptyString demo_window = Returned self' /\
    effects self' = effects demo_window /\
    result_label self' = result_label demo_window /\
    progress_bar self' = mkFraction 2 2.
Proof.
  split; [exact demo_window_reachable|].
  split; [reflexivity|]. split; [reflexivity|]. split; [reflexivity|].
  split; [reflexivity|]. split; [reflexivity|].
  exact (cancelled_save_discards_results toy_soup (fun _ => netA)
           (fun _ _ => 0) (list string) toy_read_excel toy_columns
           toy_sku_codes (fun _ _ => None) (fun _ => None) EmptyString
           demo_window ["12345"; "777"] ["12345"; "777"]
           demo_window_reachable eq_refl eq_refl eq_refl eq_refl eq_refl).
Defined.

Lemma viewer_failure_hides_saved_results_witness :
  reachable demo_window /\
  truthy (selected_file_label demo_window) = true /\
  toy_read_excel (selected_file_label demo_window) = Returned ["12345"; "777"] /\
  existsb (String.eqb "SKU") (toy_columns ["12345"; "777"]) = true /\
  toy_sku_codes ["12345"; "777"] = Returned ["12345"; "777"] /\
  truthy "out.xlsx" = true /\
  (forall rows : list record,
     (fun (_ : string) (_ : list record) => @None exn) "out.xlsx" rows = None) /\
  (fun _ : string => Some (ClientError "no startfile")) "out.xlsx"
  = Some (ClientError "no startfile") /\
  exists rows self',
    process_file toy_soup (fun _ => netA) (fun _ _ => 0) (list string)
      toy_read_excel toy_columns toy_sku_codes (fun _ _ => None)
      (fun _ => Some (ClientError "no startfile")) "out.xlsx" demo_window
    = Returned self' /\
    List.length rows = List.length ["12345"; "777"] /\
    effects self'
    = (effects demo_window
       ++ [ToExcel "out.xlsx" rows;
           LoggingError ("Erro de processamento: "
                         ++ str_exn (ClientError "no startfile"))])%list /\
    result_label self' = "Erro: " ++ str_exn (ClientError "no startfile").
Proof.
  split; [exact demo_window_reachable|].
  split; [reflexivity|]. split; [reflexivity|]. split; [reflexivity|].
  split; [reflexivity|]. split; [reflexivity|].
  split; [intros rows; reflexivity|]. split; [reflexivity|].
  exact (viewer_failure_hides_saved_results toy_soup (fun _ => netA)
           (fun _ _ => 0) (list string) toy_read_excel toy_columns
           toy_sku_codes (fun _ _ => None)
           (fun _ => Some (ClientError "no startfile")) "out.xlsx"
           demo_window ["12345"; "777"] ["12345"; "777"]
           (ClientError "no startfile")
           demo_window_reachable eq_refl eq_refl eq_refl eq_refl eq_refl
           (fun _ => eq_refl) eq_refl).
Defined.
